(** * Movie Nexus: the search / pagination / detail controller

    A shallow embedding of [src/app/movie_main/page.tsx] (the [MoviePage]
    component) and the properties of its four operations.

    Layout of the file:
    - [JS]        the ECMAScript built-ins the component calls
                  ([trim], [parseInt], [encodeURIComponent], [||], [===]);
    - [MoviePage] the component: its state, its setters, [posterFor],
                  [fetchMovies], [fetchMovieDetails], [loadMore], the event
                  handlers, the two render guards, and the page as a
                  transition system over user events;
    - [Fixtures]  a small provider and a few pages, for the examples;
    - [JSText], [View], [ScrollLock], [Async], [Paging]: the rest of the
      page (what the render shows, the scroll-lock effect, a call cut at its
      [await]) and the vocabulary of the properties about them;
    - the lemmas about the built-ins, one equation per path through each
      operation, the claims of the specification, then further properties
      of the page (X1, X2, ...).

    Modelling conventions.
    - A JavaScript string is the list of its UTF-16 code units ([list N]).
    - The one number that comes from outside, the total count, is a double:
      an integer that a double holds exactly, [-0], an infinity or [NaN];
      [parseInt] rounds what it reads to the nearest double.  The page
      number and the length of the collection are integers that the page
      only compares and increments by one; they are kept as exact integers,
      which is what the code computes below 2^53.
    - An [async] function runs to completion as one step: the value that the
      [await] yields is supplied by a [Network] oracle, and every request is
      recorded in the [requests] log of the world.
    - [console.error] appends the caught value to the [console] log. *)

From Stdlib Require Import ZArith NArith List String Ascii Bool Lia.
From Stdlib Require Import DecimalString DecimalPos.
Import ListNotations.

(* ===================================================================== *)
(** * ECMAScript built-ins *)
(* ===================================================================== *)

Module JS.

Local Open Scope N_scope.

(** A string value: its sequence of UTF-16 code units. *)
Definition jsstring := list N.

(** An ASCII literal of the source, as a string value. *)
Definition js (s : string) : jsstring :=
  map N_of_ascii (list_ascii_of_string s).

(** [a === b] on strings. *)
Fixpoint str_eqb (a b : jsstring) : bool :=
  match a, b with
  | [], [] => true
  | x :: a', y :: b' => (x =? y) && str_eqb a' b'
  | _, _ => false
  end.

(** ToBoolean of a string: only the empty string is falsy. *)
Definition truthy (s : jsstring) : bool :=
  match s with [] => false | _ :: _ => true end.

(** ToBoolean of [string | undefined]. *)
Definition truthy_opt (s : option jsstring) : bool :=
  match s with None => false | Some v => truthy v end.

(** [a || b] where [a : string | undefined] and [b : string]. *)
Definition or_str (a : option jsstring) (b : jsstring) : jsstring :=
  match a with
  | Some v => if truthy v then v else b
  | None => b
  end.

(** [a || []] where [a : T[] | undefined]: every array is truthy. *)
Definition or_array {A} (a : option (list A)) : list A :=
  match a with Some l => l | None => [] end.

(** [a ?? b]. *)
Definition nullish {A} (a : option A) (b : A) : A :=
  match a with Some v => v | None => b end.

(** WhiteSpace and LineTerminator code units (what [trim] strips). *)
Definition is_white_space (c : N) : bool :=
  (c =? 0x09) || (c =? 0x0A) || (c =? 0x0B) || (c =? 0x0C) || (c =? 0x0D)
  || (c =? 0x20) || (c =? 0xA0) || (c =? 0x1680)
  || ((0x2000 <=? c) && (c <=? 0x200A))
  || (c =? 0x2028) || (c =? 0x2029) || (c =? 0x202F) || (c =? 0x205F)
  || (c =? 0x3000) || (c =? 0xFEFF).

Fixpoint trimStart (s : jsstring) : jsstring :=
  match s with
  | [] => []
  | c :: r => if is_white_space c then trimStart r else s
  end.

Definition trimEnd (s : jsstring) : jsstring :=
  rev (trimStart (rev s)).

(** [String.prototype.trim]. *)
Definition trim (s : jsstring) : jsstring := trimEnd (trimStart s).

(** ** Numbers *)

Inductive number :=
| NaN
| Num (z : Z)
| NegZero
| Infinity
| NegInfinity.

(** [a >= b] and [a < b] with [a] an integer: both false against NaN. *)
Definition ge (a : Z) (b : number) : bool :=
  match b with
  | NaN => false
  | Num z => (z <=? a)%Z
  | NegZero => (0 <=? a)%Z
  | Infinity => false
  | NegInfinity => true
  end.

Definition lt (a : Z) (b : number) : bool :=
  match b with
  | NaN => false
  | Num z => (a <? z)%Z
  | NegZero => (a <? 0)%Z
  | Infinity => true
  | NegInfinity => false
  end.

(** The nearest integer to [m > 0] that has at most 53 significant bits,
    a tie going to the even significand. *)
Definition round53 (m : Z) : Z :=
  let e := (Z.log2 m - 52)%Z in
  if (e <=? 0)%Z then m
  else
    let q := (m / 2 ^ e)%Z in
    let r := (m mod 2 ^ e)%Z in
    let half := (2 ^ (e - 1))%Z in
    let q' := if (r <? half)%Z then q
              else if (half <? r)%Z then (q + 1)%Z
              else if Z.even q then q else (q + 1)%Z in
    (q' * 2 ^ e)%Z.

(** The Number value of [sign * mathInt], for [mathInt >= 0]: the nearest
    double. *)
Definition to_number (negative : bool) (mathInt : Z) : number :=
  if (mathInt =? 0)%Z then (if negative then NegZero else Num 0)
  else
    let v := round53 mathInt in
    if (2 ^ 1024 <=? v)%Z then (if negative then NegInfinity else Infinity)
    else Num (if negative then (- v)%Z else v).

(** Number::toString of an integer (template literal interpolation), for
    integers below 10^21 in absolute value; from there on the code prints an
    exponent, which no page number of this component reaches. *)
Definition toString (z : Z) : jsstring :=
  js (NilZero.string_of_int (Z.to_int z)).

(** The code units of the digits 0 to 9. *)
Definition decimal_digit (c : N) : Prop := 0x30 <= c <= 0x39.

(** The value of a digit of radix up to 36, if the code unit is one. *)
Definition digit_value (c : N) : option Z :=
  if (0x30 <=? c) && (c <=? 0x39) then Some (Z.of_N (c - 0x30))
  else if (0x61 <=? c) && (c <=? 0x7A) then Some (Z.of_N (c - 0x61 + 10))
  else if (0x41 <=? c) && (c <=? 0x5A) then Some (Z.of_N (c - 0x41 + 10))
  else None.

(** The values of the longest prefix of [s] made of radix-[R] digits. *)
Fixpoint digit_prefix (R : Z) (s : jsstring) : list Z :=
  match s with
  | [] => []
  | c :: r =>
      match digit_value c with
      | Some d => if (d <? R)%Z then d :: digit_prefix R r else []
      | None => []
      end
  end.

Definition digits_value (R : Z) (ds : list Z) : Z :=
  fold_left (fun acc d => (R * acc + d)%Z) ds 0%Z.

(** [parseInt(string, radix)] for an integer [radix] in the int32 range.
    Every digit is kept (past the 20th an implementation may read zeros),
    and the integer read is rounded to the nearest double. *)
Definition parseInt (input : jsstring) (radix : Z) : number :=
  let s0 := trimStart input in
  let sign := match s0 with c :: _ => if c =? 0x2D then (-1)%Z else 1%Z
                          | [] => 1%Z end in
  let s1 := match s0 with
            | c :: r => if (c =? 0x2B) || (c =? 0x2D) then r else s0
            | [] => s0
            end in
  if ((radix =? 0)%Z || ((2 <=? radix)%Z && (radix <=? 36)%Z)) then
    let stripPrefix := (radix =? 0)%Z || (radix =? 16)%Z in
    let R := if (radix =? 0)%Z then 10%Z else radix in
    let '(R, s2) :=
      match s1 with
      | z :: x :: r =>
          if stripPrefix && (z =? 0x30) && ((x =? 0x78) || (x =? 0x58))
          then (16%Z, r) else (R, s1)
      | _ => (R, s1)
      end in
    match digit_prefix R s2 with
    | [] => NaN
    | ds => to_number (sign <? 0)%Z (digits_value R ds)
    end
  else NaN.

(** ** encodeURIComponent *)

(** The characters left as they are: letters, digits and [-_.!~*'()]. *)
Definition uri_unreserved (c : N) : bool :=
  ((0x41 <=? c) && (c <=? 0x5A)) || ((0x61 <=? c) && (c <=? 0x7A))
  || ((0x30 <=? c) && (c <=? 0x39))
  || (c =? 0x2D) || (c =? 0x5F) || (c =? 0x2E) || (c =? 0x21)
  || (c =? 0x7E) || (c =? 0x2A) || (c =? 0x27) || (c =? 0x28)
  || (c =? 0x29).

Definition hex_digit (n : N) : N :=
  if n <? 10 then 0x30 + n else 0x41 + (n - 10).

(** [%XX] for one octet. *)
Definition percent (b : N) : jsstring :=
  [0x25; hex_digit (b / 16); hex_digit (b mod 16)].

(** The UTF-8 octets of a code point. *)
Definition utf8 (cp : N) : list N :=
  if cp <? 0x80 then [cp]
  else if cp <? 0x800 then
    [0xC0 + cp / 0x40; 0x80 + cp mod 0x40]
  else if cp <? 0x10000 then
    [0xE0 + cp / 0x1000; 0x80 + (cp / 0x40) mod 0x40; 0x80 + cp mod 0x40]
  else
    [0xF0 + cp / 0x40000; 0x80 + (cp / 0x1000) mod 0x40;
     0x80 + (cp / 0x40) mod 0x40; 0x80 + cp mod 0x40].

Definition is_lead (c : N) : bool := (0xD800 <=? c) && (c <=? 0xDBFF).
Definition is_trail (c : N) : bool := (0xDC00 <=? c) && (c <=? 0xDFFF).

Definition escape_cp (cp : N) : jsstring := flat_map percent (utf8 cp).

(** [encodeURIComponent(s)]; [None] is the URIError thrown on a lone
    surrogate. *)
Fixpoint encodeURIComponent (s : jsstring) : option jsstring :=
  match s with
  | [] => Some []
  | c :: r =>
      if uri_unreserved c then option_map (cons c) (encodeURIComponent r)
      else if is_trail c then None
      else if is_lead c then
        match r with
        | d :: r' =>
            if is_trail d then
              option_map
                (app (escape_cp ((c - 0xD800) * 0x400 + (d - 0xDC00) + 0x10000)))
                (encodeURIComponent r')
            else None
        | [] => None
        end
      else option_map (app (escape_cp c)) (encodeURIComponent r)
  end.

End JS.

Import JS.

(* ===================================================================== *)
(** * The component *)
(* ===================================================================== *)

Module MoviePage.

(** ** Data received from the provider *)

Module OmdbMovie.
Record t := {
  Title : jsstring;
  Year : jsstring;
  imdbID : jsstring;
  Poster : jsstring
}.
End OmdbMovie.

Module OmdbSearchResponse.
Record t := {
  Search : option (list OmdbMovie.t);
  totalResults : option jsstring;
  Response : jsstring;
  Error : option jsstring
}.
End OmdbSearchResponse.

(** The detail response is untyped in the source ([any]); these are the
    properties the component reads from it, each possibly absent. *)
Module OmdbDetail.
Record t := {
  Response : option jsstring;
  Error : option jsstring;
  Title : option jsstring;
  Year : option jsstring;
  Runtime : option jsstring;
  Genre : option jsstring;
  Plot : option jsstring;
  Actors : option jsstring;
  Director : option jsstring;
  imdbRating : option jsstring;
  Poster : option jsstring
}.
End OmdbDetail.

(** ** The state of the component (its eight [useState] cells) *)

Record State := {
  search : jsstring;
  movies : list OmdbMovie.t;
  selectedMovie : option OmdbDetail.t;
  loadingMovies : bool;
  loadingDetails : bool;
  error : option jsstring;
  page : Z;
  totalResults : number
}.

Definition initial : State := {|
  search := [];
  movies := [];
  selectedMovie := None;
  loadingMovies := false;
  loadingDetails := false;
  error := None;
  page := 1;
  totalResults := Num 0
|}.

(** ** Effects: state, thrown values, the request log, the console *)

Inductive exn := URIError | TypeError | SyntaxError.

(** What awaiting [fetch(url)] and then [res.json()] yields. *)
Inductive outcome (A : Type) :=
| Threw (e : exn)
| Returned (a : A).
Arguments Threw {A} e.
Arguments Returned {A} a.

(** The provider, as seen from the page: what each URL answers. *)
Record Network := {
  search_api : jsstring -> outcome OmdbSearchResponse.t;
  detail_api : jsstring -> outcome OmdbDetail.t
}.

Record World := {
  ui : State;
  requests : list jsstring;
  console : list exn
}.

Inductive result (A : Type) :=
| Ok (a : A)
| Throw (e : exn).
Arguments Ok {A} a.
Arguments Throw {A} e.

Definition M (A : Type) : Type := World -> result A * World.

Definition ret {A} (a : A) : M A := fun w => (Ok a, w).

Definition bind {A B} (c : M A) (k : A -> M B) : M B :=
  fun w =>
    match c w with
    | (Ok a, w1) => k a w1
    | (Throw e, w1) => (Throw e, w1)
    end.

Definition throw {A} (e : exn) : M A := fun w => (Throw e, w).

Notation "x <- c1 ;; c2" := (bind c1 (fun x => c2))
  (at level 61, c1 at next level, right associativity).
Notation "c1 ;; c2" := (bind c1 (fun _ => c2))
  (at level 61, right associativity).

(** [try { body } catch (err) { handler }]. *)
Definition try_catch {A} (body : M A) (handler : exn -> M A) : M A :=
  fun w =>
    match body w with
    | (Ok a, w1) => (Ok a, w1)
    | (Throw e, w1) => handler e w1
    end.

(** [try { body } finally { final }]: [final] runs on every exit. *)
Definition try_finally {A} (body : M A) (final : M unit) : M A :=
  fun w =>
    match body w with
    | (r, w1) =>
        match final w1 with
        | (Ok _, w2) => (r, w2)
        | (Throw e, w2) => (Throw e, w2)
        end
    end.

Definition try_catch_finally {A}
    (body : M A) (handler : exn -> M A) (final : M unit) : M A :=
  try_finally (try_catch body handler) final.

Definition modify (f : State -> State) : M unit :=
  fun w => (Ok tt, {| ui := f (ui w);
                      requests := requests w;
                      console := console w |}).

(** [await fetch(url)] followed by [await res.json()]. *)
Definition fetch_json {A} (api : jsstring -> outcome A) (url : jsstring)
  : M A :=
  fun w =>
    let w1 := {| ui := ui w;
                 requests := requests w ++ [url];
                 console := console w |} in
    match api url with
    | Threw e => (Throw e, w1)
    | Returned data => (Ok data, w1)
    end.

Definition console_error (e : exn) : M unit :=
  fun w => (Ok tt, {| ui := ui w;
                      requests := requests w;
                      console := console w ++ [e] |}).

(** [encodeURIComponent] inside the monad: a lone surrogate throws. *)
Definition encode (s : jsstring) : M jsstring :=
  match encodeURIComponent s with
  | Some e => ret e
  | None => throw URIError
  end.

(** ** The setters *)

Definition setSearch (v : jsstring) : M unit :=
  modify (fun s => {| search := v; movies := movies s;
    selectedMovie := selectedMovie s; loadingMovies := loadingMovies s;
    loadingDetails := loadingDetails s; error := error s; page := page s;
    totalResults := totalResults s |}).

(** [setMovies] is used with a value and with an updater of the previous
    value; a value [v] is the updater [fun _ => v]. *)
Definition setMovies (f : list OmdbMovie.t -> list OmdbMovie.t) : M unit :=
  modify (fun s => {| search := search s; movies := f (movies s);
    selectedMovie := selectedMovie s; loadingMovies := loadingMovies s;
    loadingDetails := loadingDetails s; error := error s; page := page s;
    totalResults := totalResults s |}).

Definition setSelectedMovie (v : option OmdbDetail.t) : M unit :=
  modify (fun s => {| search := search s; movies := movies s;
    selectedMovie := v; loadingMovies := loadingMovies s;
    loadingDetails := loadingDetails s; error := error s; page := page s;
    totalResults := totalResults s |}).

Definition setLoadingMovies (v : bool) : M unit :=
  modify (fun s => {| search := search s; movies := movies s;
    selectedMovie := selectedMovie s; loadingMovies := v;
    loadingDetails := loadingDetails s; error := error s; page := page s;
    totalResults := totalResults s |}).

Definition setLoadingDetails (v : bool) : M unit :=
  modify (fun s => {| search := search s; movies := movies s;
    selectedMovie := selectedMovie s; loadingMovies := loadingMovies s;
    loadingDetails := v; error := error s; page := page s;
    totalResults := totalResults s |}).

Definition setError (v : option jsstring) : M unit :=
  modify (fun s => {| search := search s; movies := movies s;
    selectedMovie := selectedMovie s; loadingMovies := loadingMovies s;
    loadingDetails := loadingDetails s; error := v; page := page s;
    totalResults := totalResults s |}).

Definition setPage (v : Z) : M unit :=
  modify (fun s => {| search := search s; movies := movies s;
    selectedMovie := selectedMovie s; loadingMovies := loadingMovies s;
    loadingDetails := loadingDetails s; error := error s; page := v;
    totalResults := totalResults s |}).

Definition setTotalResults (v : number) : M unit :=
  modify (fun s => {| search := search s; movies := movies s;
    selectedMovie := selectedMovie s; loadingMovies := loadingMovies s;
    loadingDetails := loadingDetails s; error := error s; page := page s;
    totalResults := v |}).

(** ** The body of [MoviePage] *)

Definition placeholder : jsstring :=
  js "https://via.placeholder.com/400x600?text=No+Poster".

(** [poster && poster !== "N/A" ? poster : placeholder]. *)
Definition posterFor (poster : option jsstring) : jsstring :=
  match poster with
  | Some p => if truthy p && negb (str_eqb p (js "N/A")) then p
              else placeholder
  | None => placeholder
  end.

Section Component.

(** [process.env.NEXT_PUBLIC_OMDB_API_KEY]. *)
Variable NEXT_PUBLIC_OMDB_API_KEY : option jsstring.

Variable net : Network.

Definition API_KEY : jsstring :=
  nullish NEXT_PUBLIC_OMDB_API_KEY (js "3bc93085").

Definition search_url (encoded : jsstring) (pageParam : Z) : jsstring :=
  js "https://www.omdbapi.com/?s=" ++ encoded
  ++ js "&apikey=" ++ API_KEY ++ js "&page=" ++ toString pageParam.

Definition detail_url (encoded : jsstring) : jsstring :=
  js "https://www.omdbapi.com/?i=" ++ encoded ++ js "&apikey=" ++ API_KEY.

(** The functions below are closures of one render: [s] is the state
    that render saw.  Their setters act on the state of the world. *)
Variable s : State.

Definition fetchMovies (pageParam : Z) (append : bool) : M unit :=
  if negb (truthy (trim (search s))) then ret tt
  else
    setLoadingMovies true ;;
    setError None ;;
    try_catch_finally
      (encoded <- encode (search s) ;;
       data <- fetch_json (search_api net) (search_url encoded pageParam) ;;
       if str_eqb (OmdbSearchResponse.Response data) (js "False") then
         setError (Some (or_str (OmdbSearchResponse.Error data)
                                (js "No results"))) ;;
         setMovies (fun _ => []) ;;
         setTotalResults (Num 0)
       else
         setMovies (fun prev =>
           if append
           then prev ++ or_array (OmdbSearchResponse.Search data)
           else or_array (OmdbSearchResponse.Search data)) ;;
         setTotalResults
           (parseInt (or_str (OmdbSearchResponse.totalResults data)
                             (js "0")) 10) ;;
         setPage pageParam)
      (fun err =>
         setError (Some (js
           "Failed to fetch movies. Check your network or API key.")) ;;
         console_error err)
      (setLoadingMovies false).

Definition fetchMovieDetails (id : jsstring) : M unit :=
  if negb (truthy id) then ret tt
  else
    setLoadingDetails true ;;
    setError None ;;
    try_catch_finally
      (encoded <- encode id ;;
       data <- fetch_json (detail_api net) (detail_url encoded) ;;
       if match OmdbDetail.Response data with
          | Some r => str_eqb r (js "False")
          | None => false (* undefined === "False" *)
          end
       then
         setError (Some (or_str (OmdbDetail.Error data)
                                (js "Failed to load movie details."))) ;;
         setSelectedMovie None
       else
         setSelectedMovie (Some data))
      (fun err =>
         setError (Some (js "Failed to fetch movie details.")) ;;
         console_error err)
      (setLoadingDetails false).

Definition loadMore : M unit :=
  let next := (page s + 1)%Z in
  if ge (Z.of_nat (List.length (movies s))) (totalResults s) then ret tt
  else fetchMovies next true.

(** *** Event handlers *)

(** The [keydown] listener on [window]. *)
Definition onKey (key : jsstring) : M unit :=
  if str_eqb key (js "Escape") then setSelectedMovie None else ret tt.

Definition input_onChange (value : jsstring) : M unit := setSearch value.

Definition input_onKeyDown (key : jsstring) : M unit :=
  if str_eqb key (js "Enter") then fetchMovies 1 false else ret tt.

Definition searchButton_onClick : M unit := fetchMovies 1 false.

Definition card_onClick (movie : OmdbMovie.t) : M unit :=
  fetchMovieDetails (OmdbMovie.imdbID movie).

Definition card_onKeyDown (movie : OmdbMovie.t) (key : jsstring) : M unit :=
  if str_eqb key (js "Enter") || str_eqb key (js " ")
  then fetchMovieDetails (OmdbMovie.imdbID movie) else ret tt.

Definition loadMoreButton_onClick : M unit := loadMore.

Definition overlay_onClick : M unit := setSelectedMovie None.

Definition closeButton_onClick : M unit := setSelectedMovie None.

(** *** Render guards *)

(** [movies.length > 0 && movies.length < totalResults]. *)
Definition showLoadMore : bool :=
  (0 <? Z.of_nat (List.length (movies s)))%Z
  && lt (Z.of_nat (List.length (movies s))) (totalResults s).

(** [selectedMovie && ...]: the modal is rendered. *)
Definition showModal : bool :=
  match selectedMovie s with Some _ => true | None => false end.

End Component.

(** ** The page as a transition system

    An event reaches a handler only if the element that carries the
    handler is rendered; the handler is the closure of the latest render,
    so it sees the current state.  A key pressed on a card or in the search
    box first reaches the handler of that element and then, since nothing
    stops it, the [keydown] listener of the window. *)

(** Two listeners of one event, the inner one first: the second runs
    whatever the first did. *)
Definition bubble (inner outer : M unit) : M unit :=
  fun w =>
    match inner w with
    | (Ok _, w1) => outer w1
    | (Throw e, w1) => (Throw e, snd (outer w1))
    end.

Inductive event :=
| InputChange (value : jsstring)
| InputKeyDown (key : jsstring)
| SearchClick
| CardClick (i : nat)
| CardKeyDown (i : nat) (key : jsstring)
| LoadMoreClick
| WindowKeyDown (key : jsstring)
| OverlayClick
| CloseClick.

Definition dispatch (key : option jsstring) (net : Network) (e : event)
  : M unit :=
  fun w =>
    let s := ui w in
    match e with
    | InputChange v => input_onChange v w
    | InputKeyDown k => bubble (input_onKeyDown key net s k) (onKey k) w
    | SearchClick => searchButton_onClick key net s w
    | CardClick i =>
        match nth_error (movies s) i with
        | Some m => card_onClick key net m w
        | None => ret tt w
        end
    | CardKeyDown i k =>
        match nth_error (movies s) i with
        | Some m => bubble (card_onKeyDown key net m k) (onKey k) w
        | None => ret tt w
        end
    | LoadMoreClick =>
        if showLoadMore s then loadMoreButton_onClick key net s w
        else ret tt w
    | WindowKeyDown k => onKey k w
    | OverlayClick => if showModal s then overlay_onClick w else ret tt w
    | CloseClick => if showModal s then closeButton_onClick w else ret tt w
    end.

(** The world after a sequence of events, each answered by its own
    network.  Each event runs the call it starts through to its response
    before the next event comes: this is a user who waits for every answer.
    Events that come while a request is out are the matter of [Async]. *)
Fixpoint run (key : option jsstring) (es : list (Network * event))
    (w : World) : World :=
  match es with
  | [] => w
  | (net, e) :: es' => run key es' (snd (dispatch key net e w))
  end.

Definition start : World :=
  {| ui := initial; requests := []; console := [] |}.

(** The world a computation leaves behind. *)
Definition after {A} (c : M A) (w : World) : World := snd (c w).

(** The specification's name for the state change that the Escape key, the
    overlay and the close button perform inline ([setSelectedMovie(null)]). *)
Definition closeDetails : M unit := setSelectedMovie None.

(** The state a finished [fetchMovies] leaves: the list flag is down, and
    [ms], [e], [p], [n] are the collection, the error, the page and the
    count it ends with; nothing else moves. *)
Definition searched (u : State) (ms : list OmdbMovie.t) (e : option jsstring)
    (p : Z) (n : number) : State :=
  {| search := search u; movies := ms; selectedMovie := selectedMovie u;
     loadingMovies := false; loadingDetails := loadingDetails u;
     error := e; page := p; totalResults := n |}.

(** The state a finished [fetchMovieDetails] leaves. *)
Definition looked_up (u : State) (sel : option OmdbDetail.t)
    (e : option jsstring) : State :=
  {| search := search u; movies := movies u; selectedMovie := sel;
     loadingMovies := loadingMovies u; loadingDetails := false;
     error := e; page := page u; totalResults := totalResults u |}.

(** [data.Response === "False"] on a detail response. *)
Definition detail_failed (data : OmdbDetail.t) : bool :=
  match OmdbDetail.Response data with
  | Some r => str_eqb r (js "False")
  | None => false
  end.

End MoviePage.

Import MoviePage.

(* ===================================================================== *)
(** * Sample data used by the examples *)
(* ===================================================================== *)

Module Fixtures.

Definition movie (id : string) : OmdbMovie.t :=
  {| OmdbMovie.Title := js "Batman"; OmdbMovie.Year := js "1989";
     OmdbMovie.imdbID := js id; OmdbMovie.Poster := js "N/A" |}.

Definition page1 : list OmdbMovie.t := [movie "tt1"; movie "tt2"].
Definition page2 : list OmdbMovie.t := [movie "tt3"; movie "tt4"].
Definition page3 : list OmdbMovie.t := [movie "tt5"].

Definition found (items : list OmdbMovie.t) : OmdbSearchResponse.t :=
  {| OmdbSearchResponse.Search := Some items;
     OmdbSearchResponse.totalResults := Some (js "5");
     OmdbSearchResponse.Response := js "True";
     OmdbSearchResponse.Error := None |}.

Definition not_found : OmdbSearchResponse.t :=
  {| OmdbSearchResponse.Search := None;
     OmdbSearchResponse.totalResults := None;
     OmdbSearchResponse.Response := js "False";
     OmdbSearchResponse.Error := Some (js "Movie not found!") |}.

Definition shawshank : OmdbDetail.t :=
  {| OmdbDetail.Response := Some (js "True");
     OmdbDetail.Error := None;
     OmdbDetail.Title := Some (js "The Shawshank Redemption");
     OmdbDetail.Year := Some (js "1994");
     OmdbDetail.Runtime := Some (js "142 min");
     OmdbDetail.Genre := Some (js "Drama");
     OmdbDetail.Plot := Some (js "Two imprisoned men bond.");
     OmdbDetail.Actors := Some (js "Tim Robbins, Morgan Freeman");
     OmdbDetail.Director := Some (js "Frank Darabont");
     OmdbDetail.imdbRating := Some (js "9.3");
     OmdbDetail.Poster := Some (js "https://example.org/p.jpg") |}.

Definition bad_id : OmdbDetail.t :=
  {| OmdbDetail.Response := Some (js "False");
     OmdbDetail.Error := Some (js "Incorrect IMDb ID.");
     OmdbDetail.Title := None; OmdbDetail.Year := None;
     OmdbDetail.Runtime := None; OmdbDetail.Genre := None;
     OmdbDetail.Plot := None; OmdbDetail.Actors := None;
     OmdbDetail.Director := None; OmdbDetail.imdbRating := None;
     OmdbDetail.Poster := None |}.

(** A provider that knows five Batman films, three pages of them, and the
    film tt0111161. *)
Definition omdb : Network :=
  {| search_api := fun url =>
       if str_eqb url (search_url None (js "batman") 1)
       then Returned (found page1)
       else if str_eqb url (search_url None (js "batman") 2)
       then Returned (found page2)
       else if str_eqb url (search_url None (js "batman") 3)
       then Returned (found page3)
       else if str_eqb url (search_url None (js "superman") 2)
       then Returned (found [movie "tt9"])
       else Returned not_found;
     detail_api := fun url =>
       if str_eqb url (detail_url None (js "tt0111161"))
       then Returned shawshank
       else Returned bad_id |}.

(** A provider that answers every search with [r]. *)
Definition always (r : OmdbSearchResponse.t) : Network :=
  {| search_api := fun _ => Returned r;
     detail_api := fun _ => Returned bad_id |}.

(** No network: every request throws. *)
Definition offline : Network :=
  {| search_api := fun _ => Threw TypeError;
     detail_api := fun _ => Threw TypeError |}.

(** A page that shows the first two Batman films of five. *)
Definition browsing : World :=
  run None [(omdb, InputChange (js "batman")); (omdb, SearchClick)] start.

(** The same page with a film selected. *)
Definition viewing : World :=
  {| ui := {| search := js "batman"; movies := page1;
              selectedMovie := Some shawshank; loadingMovies := false;
              loadingDetails := false; error := None; page := 1;
              totalResults := Num 5 |};
     requests := []; console := [] |}.

End Fixtures.

(* ===================================================================== *)
(** * More of the page: the view, the effects, the two halves of a call *)
(* ===================================================================== *)

(** ** [String.prototype.split] and [Array.prototype.join] *)

Module JSText.

(** [s.startsWith(p)]. *)
Fixpoint starts_with (p s : jsstring) : bool :=
  match p, s with
  | [], _ => true
  | x :: p', y :: s' => (x =? y)%N && starts_with p' s'
  | _ :: _, [] => false
  end.

(** The scan of [split] for a non-empty separator: [cur] is the piece being
    read, reversed; [skip] counts the code units of a separator just found
    that are still to be passed over. *)
Fixpoint split_go (sep : jsstring) (skip : nat) (cur s : jsstring)
  : list jsstring :=
  match s with
  | [] => [rev cur]
  | c :: r =>
      match skip with
      | S k => split_go sep k cur r
      | O =>
          if starts_with sep s
          then rev cur :: split_go sep (List.length sep - 1) [] r
          else split_go sep 0 (c :: cur) r
      end
  end.

(** [s.split(sep)] without a limit. *)
Definition split (s sep : jsstring) : list jsstring :=
  match sep with
  | [] => map (fun c => [c]) s
  | _ :: _ => split_go sep 0 [] s
  end.

(** [a.join(sep)]. *)
Definition join (sep : jsstring) (a : list jsstring) : jsstring :=
  match a with
  | [] => []
  | x :: rest => x ++ flat_map (fun y => sep ++ y) rest
  end.

(** [s.includes(p)]. *)
Fixpoint includes (s p : jsstring) : bool :=
  starts_with p s
  || match s with
     | [] => false
     | _ :: r => includes r p
     end.

End JSText.

Import JSText.

(** ** What the render shows of the state *)

Module View.

(** [{error && <div>{error}</div>}]: the notice above the grid. *)
Definition showError (s : State) : bool := truthy_opt (error s).

(** [selectedMovie?.Genre?.split(", ") ?? []]: the genre chips. *)
Definition genres (sel : option OmdbDetail.t) : list jsstring :=
  match sel with
  | Some d =>
      match OmdbDetail.Genre d with
      | Some g => split g (js ", ")
      | None => []
      end
  | None => []
  end.

(** [selectedMovie?.Plot && selectedMovie.Plot !== "N/A"
      ? selectedMovie.Plot : "Plot not available."]. *)
Definition plot (sel : option OmdbDetail.t) : jsstring :=
  match sel with
  | Some d =>
      match OmdbDetail.Plot d with
      | Some p => if truthy p && negb (str_eqb p (js "N/A")) then p
                  else js "Plot not available."
      | None => js "Plot not available."
      end
  | None => js "Plot not available."
  end.

(** [selectedMovie?.Actors ?? "N/A"], and the same for the director and the
    rating. *)
Definition field (get : OmdbDetail.t -> option jsstring)
    (sel : option OmdbDetail.t) : jsstring :=
  nullish (match sel with Some d => get d | None => None end) (js "N/A").

Definition actors : option OmdbDetail.t -> jsstring := field OmdbDetail.Actors.
Definition director : option OmdbDetail.t -> jsstring :=
  field OmdbDetail.Director.
Definition imdbRating : option OmdbDetail.t -> jsstring :=
  field OmdbDetail.imdbRating.

(** The three states of the grid:
    [loadingMovies && movies.length === 0 ? ... : movies.length > 0 ? ... : ...]. *)
Inductive grid :=
| LoadingMovies
| Cards (cards : list OmdbMovie.t)
| EmptyState.

Definition movieGrid (s : State) : grid :=
  if loadingMovies s && (Z.of_nat (List.length (movies s)) =? 0)%Z
  then LoadingMovies
  else if (0 <? Z.of_nat (List.length (movies s)))%Z then Cards (movies s)
  else EmptyState.

End View.

(** ** The effect that locks the scroll of the page

    [useEffect(() => { if (selectedMovie) { const prev = body.style.overflow;
    body.style.overflow = "hidden"; return () => { body.style.overflow = prev } } },
    [selectedMovie])]. *)

Module ScrollLock.

(** [document.body.style.overflow], and the clean-up function that the last
    run of the effect returned, if it returned one: it holds [prev]. *)
Record Body := {
  overflow : jsstring;
  cleanup : option jsstring
}.

(** Running the clean-up of the previous run. *)
Definition run_cleanup (b : Body) : Body :=
  match cleanup b with
  | Some prev => {| overflow := prev; cleanup := None |}
  | None => b
  end.

(** The body of the effect, for the [selectedMovie] of the render. *)
Definition effect (sel : option OmdbDetail.t) (b : Body) : Body :=
  match sel with
  | Some _ => {| overflow := js "hidden"; cleanup := Some (overflow b) |}
  | None => {| overflow := overflow b; cleanup := None |}
  end.

(** A render in which [selectedMovie] changed: the previous clean-up runs,
    then the effect. *)
Definition commit (sel : option OmdbDetail.t) (b : Body) : Body :=
  effect sel (run_cleanup b).

(** The page is mounted with no selection; then [selectedMovie] takes the
    values [sels], one render each. *)
Definition mount (initial_overflow : jsstring) : Body :=
  effect None {| overflow := initial_overflow; cleanup := None |}.

Definition commits (sels : list (option OmdbDetail.t)) (b : Body) : Body :=
  fold_left (fun b sel => commit sel b) sels b.

(** Unmounting runs the last clean-up. *)
Definition unmount (b : Body) : Body := run_cleanup b.

End ScrollLock.

(** ** A call in two halves

    An [async] function runs up to its first [await] inside the event that
    called it, and the rest when the response arrives, on the state of that
    moment.  [fetchMovies_begin] and [fetchMovieDetails_begin] are the first
    halves: they end [Finished] when the call returned or threw before any
    request, and [Awaiting url] when the request is out.  The two [_resume]
    functions are the second halves; they run under the same [try], so the
    [catch] and the [finally] of the call follow them. *)

Module Async.

Inductive suspended :=
| Finished
| Awaiting (url : jsstring).

(** [fetch(url)] up to the point where the call is suspended. *)
Definition issue (url : jsstring) : M suspended :=
  fun w => (Ok (Awaiting url),
            {| ui := ui w;
               requests := requests w ++ [url];
               console := console w |}).

(** The value that resumes the call. *)
Definition settle {A} (o : outcome A) : M A :=
  match o with
  | Threw e => throw e
  | Returned data => ret data
  end.

Section Halves.

Variable NEXT_PUBLIC_OMDB_API_KEY : option jsstring.
Variable s : State.

Definition fetchMovies_begin (pageParam : Z) : M suspended :=
  if negb (truthy (trim (search s))) then ret Finished
  else
    setLoadingMovies true ;;
    setError None ;;
    try_catch
      (encoded <- encode (search s) ;;
       issue (search_url NEXT_PUBLIC_OMDB_API_KEY encoded pageParam))
      (fun err =>
         try_finally
           (setError (Some (js
              "Failed to fetch movies. Check your network or API key.")) ;;
            console_error err)
           (setLoadingMovies false) ;;
         ret Finished).

Definition fetchMovies_resume (pageParam : Z) (append : bool)
    (o : outcome OmdbSearchResponse.t) : M unit :=
  try_catch_finally
    (data <- settle o ;;
     if str_eqb (OmdbSearchResponse.Response data) (js "False") then
       setError (Some (or_str (OmdbSearchResponse.Error data)
                              (js "No results"))) ;;
       setMovies (fun _ => []) ;;
       setTotalResults (Num 0)
     else
       setMovies (fun prev =>
         if append
         then prev ++ or_array (OmdbSearchResponse.Search data)
         else or_array (OmdbSearchResponse.Search data)) ;;
       setTotalResults
         (parseInt (or_str (OmdbSearchResponse.totalResults data)
                           (js "0")) 10) ;;
       setPage pageParam)
    (fun err =>
       setError (Some (js
         "Failed to fetch movies. Check your network or API key.")) ;;
       console_error err)
    (setLoadingMovies false).

Definition fetchMovieDetails_begin (id : jsstring) : M suspended :=
  if negb (truthy id) then ret Finished
  else
    setLoadingDetails true ;;
    setError None ;;
    try_catch
      (encoded <- encode id ;;
       issue (detail_url NEXT_PUBLIC_OMDB_API_KEY encoded))
      (fun err =>
         try_finally
           (setError (Some (js "Failed to fetch movie details.")) ;;
            console_error err)
           (setLoadingDetails false) ;;
         ret Finished).

Definition fetchMovieDetails_resume (o : outcome OmdbDetail.t) : M unit :=
  try_catch_finally
    (data <- settle o ;;
     if match OmdbDetail.Response data with
        | Some r => str_eqb r (js "False")
        | None => false
        end
     then
       setError (Some (or_str (OmdbDetail.Error data)
                              (js "Failed to load movie details."))) ;;
       setSelectedMovie None
     else
       setSelectedMovie (Some data))
    (fun err =>
       setError (Some (js "Failed to fetch movie details.")) ;;
       console_error err)
    (setLoadingDetails false).

(** [loadMore] up to the [await] of the [fetchMovies] it calls. *)
Definition loadMore_begin : M suspended :=
  let next := (page s + 1)%Z in
  if ge (Z.of_nat (List.length (movies s))) (totalResults s) then ret Finished
  else fetchMovies_begin next.

End Halves.

(** The second half that follows a first half, when the network answers at
    once. *)
Definition then_resume {A} (api : jsstring -> outcome A)
    (resume : outcome A -> M unit) (r : suspended) : M unit :=
  match r with
  | Finished => ret tt
  | Awaiting url => resume (api url)
  end.

End Async.

(** ** Pages of results *)

Module Paging.

(** The provider holds [pages] for the encoded query [encoded]: page [i + 1]
    is answered by a success response with the items of [pages[i]] and the
    count [total]. *)
Definition serves (key : option jsstring) (net : Network)
    (encoded : jsstring) (pages : list (list OmdbMovie.t)) (total : Z)
  : Prop :=
  forall i items,
    nth_error pages i = Some items ->
    exists data,
      search_api net (search_url key encoded (Z.of_nat (S i))) = Returned data
      /\ str_eqb (OmdbSearchResponse.Response data) (js "False") = false
      /\ or_array (OmdbSearchResponse.Search data) = items
      /\ parseInt (or_str (OmdbSearchResponse.totalResults data) (js "0")) 10
         = Num total.

(** The URLs of the pages [1 .. j]. *)
Definition page_urls (key : option jsstring) (encoded : jsstring) (j : nat)
  : list jsstring :=
  map (fun i => search_url key encoded (Z.of_nat i)) (seq 1 j).

(** What the calls leave in [error]: nothing, or a text that is not empty. *)
Definition message (e : option jsstring) : Prop :=
  e = None \/ exists m, e = Some m /\ m <> [].

(** Every URL the page builds starts with this. *)
Definition origin : jsstring := js "https://www.omdbapi.com/?".

(** At most one request, and to [origin]. *)
Definition one_request (rq : list jsstring) : Prop :=
  rq = [] \/ exists url, rq = [url] /\ starts_with origin url = true.

(** What an event can do to the world. *)
Inductive step (w : World) : World -> Prop :=
| step_none : step w w
| step_typed v : step w (after (setSearch v) w)
| step_closed : step w (after closeDetails w)
| step_searched ms e pg n rq cs :
    message e ->
    (pg = page (ui w) \/ pg = 1%Z \/ pg = (page (ui w) + 1)%Z) ->
    one_request rq ->
    step w {| ui := searched (ui w) ms e pg n;
              requests := requests w ++ rq;
              console := console w ++ cs |}
| step_looked_up sel e rq cs :
    message e ->
    one_request rq ->
    step w {| ui := looked_up (ui w) sel e;
              requests := requests w ++ rq;
              console := console w ++ cs |}.

(** What every step keeps. *)
Definition settled (w : World) : Prop :=
  (1 <= page (ui w))%Z
  /\ loadingMovies (ui w) = false
  /\ loadingDetails (ui w) = false
  /\ message (error (ui w))
  /\ Forall (fun url => starts_with origin url = true) (requests w).

(** The page shows the first [j] of the [pages] of the query [q], with no
    error. *)
Definition synced (q : jsstring) (pages : list (list OmdbMovie.t))
    (j : nat) (w : World) : Prop :=
  (1 <= j <= List.length pages)%nat
  /\ search (ui w) = q
  /\ movies (ui w) = List.concat (firstn j pages)
  /\ page (ui w) = Z.of_nat j
  /\ totalResults (ui w) = Num (Z.of_nat (List.length (List.concat pages)))
  /\ error (ui w) = None.



(** A world that some sequence of events leads to from a fresh page. *)
Definition reachable (key : option jsstring) (w : World) : Prop :=
  exists es, w = run key es start.

End Paging.

(* ===================================================================== *)
(** * Properties of the built-ins *)
(* ===================================================================== *)

Section Builtins.

Example trim_strips_both_ends : trim (js "  batman ") = js "batman".
Proof. reflexivity. Qed.

Example trim_keeps_inner_space : trim (js " bat man") = js "bat man".
Proof. reflexivity. Qed.

Example parseInt_stops_at_letter : parseInt (js " 50abc") 10 = Num 50.
Proof. reflexivity. Qed.

Example parseInt_no_digit : parseInt (js "abc") 10 = NaN.
Proof. reflexivity. Qed.

Example parseInt_no_hex_prefix_in_radix_10 : parseInt (js "0x1F") 10 = Num 0.
Proof. reflexivity. Qed.

Example encode_reserved :
  encodeURIComponent (js "bat man&x") = Some (js "bat%20man%26x").
Proof. reflexivity. Qed.

Example encode_two_octets : encodeURIComponent [0xE9%N] = Some (js "%C3%A9").
Proof. reflexivity. Qed.

Example encode_surrogate_pair :
  encodeURIComponent [0xD83C%N; 0xDFAC%N] = Some (js "%F0%9F%8E%AC").
Proof. reflexivity. Qed.

Example encode_lone_surrogate : encodeURIComponent [0xD83C%N; 0x41%N] = None.
Proof. reflexivity. Qed.

Example toString_page : toString 12 = js "12".
Proof. reflexivity. Qed.

Lemma str_eqb_eq (a b : jsstring) : str_eqb a b = true <-> a = b.
Proof.
  revert b; induction a as [|x a IH]; intros [|y b]; simpl;
    try (split; [discriminate | congruence]); try tauto.
  rewrite andb_true_iff, N.eqb_eq, IH.
  split; [intros [-> ->]; reflexivity | intros E; inversion E; auto].
Qed.

Lemma str_eqb_refl (a : jsstring) : str_eqb a a = true.
Proof. apply str_eqb_eq; reflexivity. Qed.

Lemma str_eqb_neq (a b : jsstring) : str_eqb a b = false <-> a <> b.
Proof.
  rewrite <- str_eqb_eq. destruct (str_eqb a b); split; congruence.
Qed.

Lemma truthy_false_iff (a : jsstring) : truthy a = false <-> a = [].
Proof. destruct a; simpl; split; congruence. Qed.

Lemma truthy_true_iff (a : jsstring) : truthy a = true <-> a <> [].
Proof. destruct a; simpl; split; congruence. Qed.

(** [trimStart] returns the empty string exactly on strings made of white
    space only. *)
Lemma trimStart_nil_iff (a : jsstring) :
  trimStart a = [] <-> forallb is_white_space a = true.
Proof.
  induction a as [|c a IH]; simpl; [tauto|].
  destruct (is_white_space c); simpl; [exact IH|].
  split; discriminate.
Qed.

(** What [trimStart] returns is empty or starts with a character that is
    not white space. *)
Lemma trimStart_head (a : jsstring) :
  match trimStart a with
  | [] => True
  | c :: _ => is_white_space c = false
  end.
Proof.
  induction a as [|c a IH]; simpl; [exact I|].
  destruct (is_white_space c) eqn:E; [exact IH | exact E].
Qed.

Lemma trimStart_suffix (a : jsstring) :
  exists ws, a = ws ++ trimStart a /\ forallb is_white_space ws = true.
Proof.
  induction a as [|c a [ws [E F]]]; simpl.
  - exists []; auto.
  - destruct (is_white_space c) eqn:W.
    + exists (c :: ws); simpl; rewrite W, F; split; [congruence | reflexivity].
    + exists []; auto.
Qed.

(** A string is blank (empty once trimmed) exactly when all its characters
    are white space. *)
Lemma trim_nil_iff (a : jsstring) :
  trim a = [] <-> forallb is_white_space a = true.
Proof.
  unfold trim, trimEnd. split.
  - intros H.
    assert (H1 : trimStart (rev (trimStart a)) = []).
    { apply (f_equal (@rev N)) in H. rewrite rev_involutive in H. exact H. }
    apply trimStart_nil_iff in H1.
    destruct (trimStart_suffix a) as [ws [E F]].
    rewrite E, forallb_app, F; simpl.
    rewrite forallb_forall in *. intros x Hx. apply H1, in_rev.
    rewrite rev_involutive. exact Hx.
  - intros H. apply trimStart_nil_iff in H. rewrite H. reflexivity.
Qed.

Lemma blank_iff (a : jsstring) :
  negb (truthy (trim a)) = true <-> forallb is_white_space a = true.
Proof.
  rewrite negb_true_iff, truthy_false_iff. apply trim_nil_iff.
Qed.

Lemma or_str_some (m d : jsstring) : m <> [] -> or_str (Some m) d = m.
Proof. destruct m; simpl; congruence. Qed.

Lemma or_str_empty (d : jsstring) : or_str (Some []) d = d.
Proof. reflexivity. Qed.

Lemma or_str_none (d : jsstring) : or_str None d = d.
Proof. reflexivity. Qed.

(** ** [parseInt] reads back what [toString] prints *)

Lemma js_cons (c : ascii) (s : string) :
  js (String c s) = N_of_ascii c :: js s.
Proof. reflexivity. Qed.

Lemma decimal_digit_cases (c : N) :
  decimal_digit c ->
  (c = 48 \/ c = 49 \/ c = 50 \/ c = 51 \/ c = 52 \/ c = 53 \/ c = 54
   \/ c = 55 \/ c = 56 \/ c = 57)%N.
Proof. unfold decimal_digit. lia. Qed.

Lemma decimal_digit_plain (c : N) :
  decimal_digit c ->
  is_white_space c = false /\ (c =? 0x2D)%N = false /\ (c =? 0x2B)%N = false
  /\ exists d, digit_value c = Some d /\ (d <? 10)%Z = true.
Proof.
  intros H. apply decimal_digit_cases in H.
  repeat (destruct H as [-> | H]); try subst c;
    (split; [reflexivity|]; split; [reflexivity|]; split; [reflexivity|];
     eexists; split; reflexivity).
Qed.

(** In radix 10 a string that starts with a digit is read as the number its
    leading digits spell, rounded to a double. *)
Lemma parseInt_10_digits (c : N) (r : jsstring) :
  decimal_digit c ->
  parseInt (c :: r) 10
  = to_number false (digits_value 10 (digit_prefix 10 (c :: r))).
Proof.
  intros H. destruct (decimal_digit_plain c H) as [W [M [P [d [D L]]]]].
  unfold parseInt. cbn [trimStart]. rewrite W, M, P. cbn [orb].
  replace ((10 =? 0)%Z || (2 <=? 10)%Z && (10 <=? 36)%Z) with true
    by reflexivity.
  replace ((10 =? 0)%Z || (10 =? 16)%Z) with false by reflexivity.
  replace (if (10 =? 0)%Z then 10%Z else 10%Z) with 10%Z by reflexivity.
  replace (1 <? 0)%Z with false by reflexivity.
  cbn [andb].
  assert (E : (let '(R, s2) :=
                 match c :: r with
                 | _ :: _ :: _ => (10%Z, c :: r)
                 | _ => (10%Z, c :: r)
                 end in
               match digit_prefix R s2 with
               | [] => NaN
               | ds => to_number false (digits_value R ds)
               end)
              = to_number false (digits_value 10 (digit_prefix 10 (c :: r)))).
  { destruct r; cbn [digit_prefix]; rewrite D, L; reflexivity. }
  exact E.
Qed.

Lemma parseInt_10_minus_digits (c : N) (r : jsstring) :
  decimal_digit c ->
  parseInt (0x2D%N :: c :: r) 10
  = to_number true (digits_value 10 (digit_prefix 10 (c :: r))).
Proof.
  intros H. destruct (decimal_digit_plain c H) as [W [M [P [d [D L]]]]].
  unfold parseInt. cbn [trimStart].
  replace (is_white_space 0x2D) with false by reflexivity.
  replace ((0x2D =? 0x2D)%N) with true by reflexivity.
  rewrite orb_true_r.
  replace ((10 =? 0)%Z || (2 <=? 10)%Z && (10 <=? 36)%Z) with true
    by reflexivity.
  replace ((10 =? 0)%Z || (10 =? 16)%Z) with false by reflexivity.
  replace (if (10 =? 0)%Z then 10%Z else 10%Z) with 10%Z by reflexivity.
  replace (-1 <? 0)%Z with true by reflexivity.
  cbn [andb].
  assert (E : (let '(R, s2) :=
                 match c :: r with
                 | _ :: _ :: _ => (10%Z, c :: r)
                 | _ => (10%Z, c :: r)
                 end in
               match digit_prefix R s2 with
               | [] => NaN
               | ds => to_number true (digits_value R ds)
               end)
              = to_number true (digits_value 10 (digit_prefix 10 (c :: r)))).
  { destruct r; cbn [digit_prefix]; rewrite D, L; reflexivity. }
  exact E.
Qed.

(** An integer of at most 53 bits is a double. *)
Lemma round53_exact (m : Z) :
  (0 < m <= 2 ^ 53)%Z -> round53 m = m.
Proof.
  intros [P B]. destruct (Z.eq_dec m (2 ^ 53)) as [-> | NE]; [reflexivity|].
  unfold round53.
  assert (L : (Z.log2 m < 53)%Z).
  { apply Z.log2_lt_pow2; [exact P|]. lia. }
  replace (Z.log2 m - 52 <=? 0)%Z with true; [reflexivity|].
  symmetry. apply Z.leb_le. lia.
Qed.

Lemma to_number_exact (negative : bool) (m : Z) :
  (0 < m <= 2 ^ 53)%Z ->
  to_number negative m = Num (if negative then (- m)%Z else m).
Proof.
  intros B. unfold to_number. rewrite (round53_exact m B).
  replace (m =? 0)%Z with false by (symmetry; apply Z.eqb_neq; lia).
  assert (S : (2 ^ 53 < 2 ^ 1024)%Z) by reflexivity.
  replace (2 ^ 1024 <=? m)%Z with false; [reflexivity|].
  symmetry. apply Z.leb_gt. destruct B as [_ B].
  exact (Z.le_lt_trans _ _ _ B S).
Qed.

(** The digits that [string_of_uint] prints, read from the left with an
    accumulator, give what [Pos.of_uint_acc] computes. *)
Lemma digits_of_uint_acc (d : Decimal.uint) (acc : positive) :
  fold_left (fun a x => (10 * a + x)%Z)
    (digit_prefix 10 (js (NilEmpty.string_of_uint d))) (Zpos acc)
  = Zpos (Pos.of_uint_acc d acc).
Proof.
  revert acc.
  induction d; intros acc; cbn [NilEmpty.string_of_uint Pos.of_uint_acc];
    [reflexivity|..];
    rewrite js_cons; cbn [digit_prefix];
    match goal with
    | |- context [digit_value (N_of_ascii ?a)] =>
        let v := eval vm_compute in (digit_value (N_of_ascii a)) in
        change (digit_value (N_of_ascii a)) with v
    end;
    cbn [Z.ltb Z.compare Pos.compare Pos.compare_cont fold_left];
    rewrite <- IHd; f_equal; lia.
Qed.

Lemma digits_of_uint (d : Decimal.uint) :
  digits_value 10 (digit_prefix 10 (js (NilEmpty.string_of_uint d)))
  = Z.of_N (Pos.of_uint d).
Proof.
  unfold digits_value.
  induction d; cbn [NilEmpty.string_of_uint Pos.of_uint];
    [reflexivity|..];
    rewrite js_cons; cbn [digit_prefix];
    match goal with
    | |- context [digit_value (N_of_ascii ?a)] =>
        let v := eval vm_compute in (digit_value (N_of_ascii a)) in
        change (digit_value (N_of_ascii a)) with v
    end;
    cbn [Z.ltb Z.compare Pos.compare Pos.compare_cont fold_left];
    [exact IHd | ..];
    match goal with
    | |- fold_left _ _ ?a = _ =>
        let v := eval vm_compute in a in change a with v
    end;
    rewrite digits_of_uint_acc; reflexivity.
Qed.

Lemma string_of_uint_head (d : Decimal.uint) :
  d <> Decimal.Nil ->
  exists c r, js (NilEmpty.string_of_uint d) = c :: r /\ decimal_digit c.
Proof.
  intros H. destruct d; [congruence|..];
    cbn [NilEmpty.string_of_uint]; rewrite js_cons;
    eexists; eexists; (split; [reflexivity|]);
    unfold decimal_digit; vm_compute; split; discriminate.
Qed.

Lemma nilzero_string_of_uint (d : Decimal.uint) :
  d <> Decimal.Nil ->
  NilZero.string_of_uint d = NilEmpty.string_of_uint d.
Proof. destruct d; [congruence|..]; reflexivity. Qed.

(** What [toString] prints spells the integer exactly: its digits, after
    the sign, have the value of the integer. *)
Lemma toString_digits (z : Z) :
  match toString z with
  | c :: r =>
      if (c =? 0x2D)%N
      then z = (- digits_value 10 (digit_prefix 10 r))%Z
           /\ (z < 0)%Z
           /\ exists d r', r = d :: r' /\ decimal_digit d
      else z = digits_value 10 (digit_prefix 10 (c :: r))
           /\ (0 <= z)%Z /\ decimal_digit c
  | [] => False
  end.
Proof.
  destruct z as [|p|p].
  - cbn. repeat split; unfold decimal_digit; lia.
  - unfold toString. cbn [Z.to_int NilZero.string_of_int].
    pose proof (DecimalPos.Unsigned.to_uint_nonnil p) as NN.
    pose proof (DecimalPos.Unsigned.of_to p) as OT.
    destruct (string_of_uint_head (Pos.to_uint p) NN) as [c [r [E D]]].
    rewrite (nilzero_string_of_uint _ NN), E.
    destruct (decimal_digit_plain c D) as [_ [M _]]. rewrite M.
    rewrite <- E, digits_of_uint, OT.
    split; [reflexivity|]. split; [lia | exact D].
  - unfold toString. cbn [Z.to_int NilZero.string_of_int].
    pose proof (DecimalPos.Unsigned.to_uint_nonnil p) as NN.
    pose proof (DecimalPos.Unsigned.of_to p) as OT.
    destruct (string_of_uint_head (Pos.to_uint p) NN) as [c [r [E D]]].
    rewrite (nilzero_string_of_uint _ NN), js_cons.
    change (N_of_ascii "-") with 0x2D%N.
    replace ((0x2D =? 0x2D)%N) with true by reflexivity.
    rewrite digits_of_uint, OT.
    split; [reflexivity|]. split; [lia|].
    exists c, r. split; [exact E | exact D].
Qed.

(** [parseInt] in radix 10 reads back every integer that [toString] prints
    and a double holds exactly. *)
Lemma parseInt_toString (z : Z) :
  (Z.abs z <= 2 ^ 53)%Z -> parseInt (toString z) 10 = Num z.
Proof.
  intros B. pose proof (toString_digits z) as T.
  destruct (toString z) as [|c r]; [contradiction|].
  destruct (c =? 0x2D)%N eqn:C.
  - apply N.eqb_eq in C. subst c.
    destruct T as [V [Neg [d [r' [-> D]]]]].
    rewrite (parseInt_10_minus_digits d r' D).
    rewrite to_number_exact by lia. f_equal. lia.
  - destruct T as [V [Pos D]].
    rewrite (parseInt_10_digits c r D), <- V.
    destruct (Z.eq_dec z 0) as [-> | NZ]; [reflexivity|].
    apply to_number_exact. lia.
Qed.

(** Different integers are printed differently. *)
Lemma toString_inj (a b : Z) : toString a = toString b -> a = b.
Proof.
  intros E. pose proof (toString_digits a) as A.
  pose proof (toString_digits b) as B. rewrite E in A.
  destruct (toString b) as [|c r]; [contradiction|].
  destruct (c =? 0x2D)%N.
  - destruct A as [-> _]. destruct B as [-> _]. reflexivity.
  - destruct A as [-> _]. destruct B as [-> _]. reflexivity.
Qed.

(** Beyond 53 bits [parseInt] rounds: the count 2^53 + 1 is read as 2^53,
    and a count of 400 digits as infinity. *)
Example parseInt_rounds :
  parseInt (js "9007199254740993") 10 = Num 9007199254740992
  /\ parseInt (js "9007199254740995") 10 = Num 9007199254740996
  /\ parseInt (js "-0") 10 = NegZero
  /\ parseInt (js (String.concat ""%string (repeat "9999999999"%string 40))) 10
     = Infinity.
Proof. vm_compute. repeat split. Qed.

Lemma toString_truthy (z : Z) : truthy (toString z) = true.
Proof.
  destruct z as [|p|p]; [reflexivity| |reflexivity].
  unfold toString. cbn [Z.to_int NilZero.string_of_int].
  pose proof (DecimalPos.Unsigned.to_uint_nonnil p) as NN.
  destruct (string_of_uint_head (Pos.to_uint p) NN) as [c [r [E _]]].
  rewrite (nilzero_string_of_uint _ NN), E. reflexivity.
Qed.

End Builtins.

(* ===================================================================== *)
(** * Properties of the component *)
(* ===================================================================== *)

Section Scenarios.

Import Fixtures.

Example browsing_state :
  ui browsing =
    {| search := js "batman"; movies := page1; selectedMovie := None;
       loadingMovies := false; loadingDetails := false; error := None;
       page := 1; totalResults := Num 5 |}.
Proof. vm_compute. reflexivity. Qed.

Example browsing_requests :
  requests browsing = [js "https://www.omdbapi.com/?s=batman&apikey=3bc93085&page=1"].
Proof. vm_compute. reflexivity. Qed.

(** Five films in pages of two: the control disappears after two more
    pages. *)
Example load_all_pages :
  let w1 := run None [(omdb, LoadMoreClick)] browsing in
  let w2 := run None [(omdb, LoadMoreClick)] w1 in
  let w3 := run None [(omdb, LoadMoreClick)] w2 in
  showLoadMore (ui browsing) = true
  /\ movies (ui w1) = page1 ++ page2 /\ showLoadMore (ui w1) = true
  /\ movies (ui w2) = page1 ++ page2 ++ page3
  /\ showLoadMore (ui w2) = false
  /\ w3 = w2.
Proof. vm_compute. repeat split; reflexivity. Qed.

Example search_not_found :
  let w := run None [(omdb, InputChange (js "xyzzynotamovie"));
                     (omdb, SearchClick)] browsing in
  error (ui w) = Some (js "Movie not found!")
  /\ movies (ui w) = [] /\ showLoadMore (ui w) = false.
Proof. vm_compute. repeat split; reflexivity. Qed.

Example details_then_escape :
  let w1 := run None [(omdb, CardClick 0)]
              {| ui := {| search := []; movies := [movie "tt0111161"];
                          selectedMovie := None; loadingMovies := false;
                          loadingDetails := false; error := None;
                          page := 1; totalResults := Num 1 |};
                 requests := []; console := [] |} in
  let w2 := run None [(omdb, WindowKeyDown (js "Escape"))] w1 in
  selectedMovie (ui w1) = Some shawshank
  /\ selectedMovie (ui w2) = None.
Proof. vm_compute. split; reflexivity. Qed.

Example details_bad_id :
  let w := after (fetchMovieDetails None omdb (js "badid")) viewing in
  selectedMovie (ui w) = None
  /\ error (ui w) = Some (js "Incorrect IMDb ID.").
Proof. vm_compute. split; reflexivity. Qed.

Example search_offline :
  let w := run None [(offline, SearchClick)] browsing in
  error (ui w)
    = Some (js "Failed to fetch movies. Check your network or API key.")
  /\ movies (ui w) = page1 /\ totalResults (ui w) = Num 5
  /\ loadingMovies (ui w) = false /\ console w = [TypeError].
Proof. vm_compute. repeat split; reflexivity. Qed.

End Scenarios.

(** ** What one call of [fetchMovies] and of [fetchMovieDetails] does

    One equation per way through the function: the guard, a URIError
    before the request, a request that throws, a response. *)

Section Calls.

Variable key : option jsstring.
Variable net : Network.

#[local] Arguments js : simpl never.
#[local] Arguments search_url : simpl never.
#[local] Arguments detail_url : simpl never.
#[local] Arguments trim : simpl never.
#[local] Arguments encodeURIComponent : simpl never.
#[local] Arguments parseInt : simpl never.
#[local] Arguments or_str : simpl never.
#[local] Arguments or_array : simpl never.
#[local] Arguments str_eqb : simpl never.

Ltac run_m :=
  unfold try_catch_finally, try_finally, try_catch, bind, ret, throw,
    encode, fetch_json, console_error, setSearch, setMovies,
    setSelectedMovie, setLoadingMovies, setLoadingDetails, setError,
    setPage, setTotalResults, modify.

Lemma fetchMovies_blank s pageParam append w :
  truthy (trim (search s)) = false ->
  fetchMovies key net s pageParam append w = (Ok tt, w).
Proof. intros H. unfold fetchMovies. rewrite H. reflexivity. Qed.

Lemma fetchMovies_uri_error s pageParam append w :
  truthy (trim (search s)) = true ->
  encodeURIComponent (search s) = None ->
  fetchMovies key net s pageParam append w =
    (Ok tt,
     {| ui := searched (ui w) (movies (ui w))
                (Some (js "Failed to fetch movies. Check your network or API key."))
                (page (ui w)) (totalResults (ui w));
        requests := requests w;
        console := console w ++ [URIError] |}).
Proof.
  intros H E. unfold fetchMovies. rewrite H. run_m. rewrite E. reflexivity.
Qed.

Lemma fetchMovies_threw s pageParam append w encoded e :
  truthy (trim (search s)) = true ->
  encodeURIComponent (search s) = Some encoded ->
  search_api net (search_url key encoded pageParam) = Threw e ->
  fetchMovies key net s pageParam append w =
    (Ok tt,
     {| ui := searched (ui w) (movies (ui w))
                (Some (js "Failed to fetch movies. Check your network or API key."))
                (page (ui w)) (totalResults (ui w));
        requests := requests w ++ [search_url key encoded pageParam];
        console := console w ++ [e] |}).
Proof.
  intros H E T. unfold fetchMovies. rewrite H. run_m. rewrite E.
  cbn. rewrite T. reflexivity.
Qed.

Lemma fetchMovies_failure s pageParam append w encoded data :
  truthy (trim (search s)) = true ->
  encodeURIComponent (search s) = Some encoded ->
  search_api net (search_url key encoded pageParam) = Returned data ->
  str_eqb (OmdbSearchResponse.Response data) (js "False") = true ->
  fetchMovies key net s pageParam append w =
    (Ok tt,
     {| ui := searched (ui w) []
                (Some (or_str (OmdbSearchResponse.Error data) (js "No results")))
                (page (ui w)) (Num 0);
        requests := requests w ++ [search_url key encoded pageParam];
        console := console w |}).
Proof.
  intros H E T F. unfold fetchMovies. rewrite H. run_m. rewrite E.
  cbn. rewrite T.
  cbn. rewrite F. reflexivity.
Qed.

Lemma fetchMovies_success s pageParam append w encoded data :
  truthy (trim (search s)) = true ->
  encodeURIComponent (search s) = Some encoded ->
  search_api net (search_url key encoded pageParam) = Returned data ->
  str_eqb (OmdbSearchResponse.Response data) (js "False") = false ->
  fetchMovies key net s pageParam append w =
    (Ok tt,
     {| ui := searched (ui w)
                (if append
                 then movies (ui w) ++ or_array (OmdbSearchResponse.Search data)
                 else or_array (OmdbSearchResponse.Search data))
                None pageParam
                (parseInt (or_str (OmdbSearchResponse.totalResults data)
                                  (js "0")) 10);
        requests := requests w ++ [search_url key encoded pageParam];
        console := console w |}).
Proof.
  intros H E T F. unfold fetchMovies. rewrite H. run_m. rewrite E.
  cbn. rewrite T.
  cbn. rewrite F. reflexivity.
Qed.

(** A call that gets past the guard always returns normally, with the
    list flag cleared. *)
Lemma fetchMovies_clears_flag s pageParam append w :
  truthy (trim (search s)) = true ->
  fst (fetchMovies key net s pageParam append w) = Ok tt
  /\ loadingMovies (ui (after (fetchMovies key net s pageParam append) w))
     = false.
Proof.
  intros H. unfold after.
  destruct (encodeURIComponent (search s)) as [encoded|] eqn:E.
  - destruct (search_api net (search_url key encoded pageParam))
      as [e|data] eqn:T.
    + rewrite (fetchMovies_threw s pageParam append w encoded e H E T). split; reflexivity.
    + destruct (str_eqb (OmdbSearchResponse.Response data) (js "False"))
        eqn:F.
      * rewrite (fetchMovies_failure s pageParam append w encoded data H E T F). split; reflexivity.
      * rewrite (fetchMovies_success s pageParam append w encoded data H E T F). split; reflexivity.
  - rewrite (fetchMovies_uri_error s pageParam append w H E). split; reflexivity.
Qed.

(** The request log grows by at most the one URL built from the query of
    the closure. *)
Lemma fetchMovies_requests s pageParam append w :
  requests (after (fetchMovies key net s pageParam append) w) = requests w
  \/ exists encoded,
       truthy (trim (search s)) = true
       /\ encodeURIComponent (search s) = Some encoded
       /\ requests (after (fetchMovies key net s pageParam append) w)
          = requests w ++ [search_url key encoded pageParam].
Proof.
  unfold after.
  destruct (truthy (trim (search s))) eqn:H.
  2:{ rewrite (fetchMovies_blank s pageParam append w H). left; reflexivity. }
  destruct (encodeURIComponent (search s)) as [encoded|] eqn:E.
  - right. exists encoded. split; [reflexivity|]. split; [reflexivity|].
    destruct (search_api net (search_url key encoded pageParam))
      as [e|data] eqn:T.
    + rewrite (fetchMovies_threw s pageParam append w encoded e H E T). reflexivity.
    + destruct (str_eqb (OmdbSearchResponse.Response data) (js "False"))
        eqn:F.
      * rewrite (fetchMovies_failure s pageParam append w encoded data H E T F). reflexivity.
      * rewrite (fetchMovies_success s pageParam append w encoded data H E T F). reflexivity.
  - left. rewrite (fetchMovies_uri_error s pageParam append w H E). reflexivity.
Qed.

Lemma fetchMovieDetails_empty w :
  fetchMovieDetails key net [] w = (Ok tt, w).
Proof. reflexivity. Qed.

Lemma fetchMovieDetails_uri_error id w :
  truthy id = true ->
  encodeURIComponent id = None ->
  fetchMovieDetails key net id w =
    (Ok tt,
     {| ui := looked_up (ui w) (selectedMovie (ui w))
                (Some (js "Failed to fetch movie details."));
        requests := requests w;
        console := console w ++ [URIError] |}).
Proof.
  intros H E. unfold fetchMovieDetails. rewrite H. run_m. rewrite E.
  reflexivity.
Qed.

Lemma fetchMovieDetails_threw id w encoded e :
  truthy id = true ->
  encodeURIComponent id = Some encoded ->
  detail_api net (detail_url key encoded) = Threw e ->
  fetchMovieDetails key net id w =
    (Ok tt,
     {| ui := looked_up (ui w) (selectedMovie (ui w))
                (Some (js "Failed to fetch movie details."));
        requests := requests w ++ [detail_url key encoded];
        console := console w ++ [e] |}).
Proof.
  intros H E T. unfold fetchMovieDetails. rewrite H. run_m. rewrite E.
  cbn. rewrite T. reflexivity.
Qed.

Lemma fetchMovieDetails_failure id w encoded data :
  truthy id = true ->
  encodeURIComponent id = Some encoded ->
  detail_api net (detail_url key encoded) = Returned data ->
  detail_failed data = true ->
  fetchMovieDetails key net id w =
    (Ok tt,
     {| ui := looked_up (ui w) None
                (Some (or_str (OmdbDetail.Error data)
                              (js "Failed to load movie details.")));
        requests := requests w ++ [detail_url key encoded];
        console := console w |}).
Proof.
  intros H E T F. unfold fetchMovieDetails. rewrite H. run_m. rewrite E.
  cbn. rewrite T. cbn. unfold detail_failed in F. rewrite F. reflexivity.
Qed.

Lemma fetchMovieDetails_success id w encoded data :
  truthy id = true ->
  encodeURIComponent id = Some encoded ->
  detail_api net (detail_url key encoded) = Returned data ->
  detail_failed data = false ->
  fetchMovieDetails key net id w =
    (Ok tt,
     {| ui := looked_up (ui w) (Some data) None;
        requests := requests w ++ [detail_url key encoded];
        console := console w |}).
Proof.
  intros H E T F. unfold fetchMovieDetails. rewrite H. run_m. rewrite E.
  cbn. rewrite T. cbn. unfold detail_failed in F. rewrite F. reflexivity.
Qed.

Lemma fetchMovieDetails_clears_flag id w :
  truthy id = true ->
  fst (fetchMovieDetails key net id w) = Ok tt
  /\ loadingDetails (ui (after (fetchMovieDetails key net id) w)) = false.
Proof.
  intros H. unfold after.
  destruct (encodeURIComponent id) as [encoded|] eqn:E.
  - destruct (detail_api net (detail_url key encoded)) as [e|data] eqn:T.
    + rewrite (fetchMovieDetails_threw id w encoded e H E T).
      split; reflexivity.
    + destruct (detail_failed data) eqn:F.
      * rewrite (fetchMovieDetails_failure id w encoded data H E T F).
        split; reflexivity.
      * rewrite (fetchMovieDetails_success id w encoded data H E T F).
        split; reflexivity.
  - rewrite (fetchMovieDetails_uri_error id w H E). split; reflexivity.
Qed.

(** ** [loadMore] *)

Lemma loadMore_stops s w :
  ge (Z.of_nat (List.length (movies s))) (totalResults s) = true ->
  loadMore key net s w = (Ok tt, w).
Proof. intros H. unfold loadMore. rewrite H. reflexivity. Qed.

Lemma loadMore_continues s w :
  ge (Z.of_nat (List.length (movies s))) (totalResults s) = false ->
  loadMore key net s w = fetchMovies key net s (page s + 1) true w.
Proof. intros H. unfold loadMore. rewrite H. reflexivity. Qed.

(** Where the control is shown, [loadMore] goes on to [fetchMovies]. *)
Lemma showLoadMore_passes_guard s :
  showLoadMore s = true ->
  movies s <> []
  /\ ge (Z.of_nat (List.length (movies s))) (totalResults s) = false.
Proof.
  unfold showLoadMore, lt, ge. rewrite andb_true_iff.
  intros [H1 H2]. split.
  - intros E. rewrite E in H1. discriminate.
  - destruct (totalResults s) as [|z| | |]; try discriminate.
    + apply Z.ltb_lt in H2. apply Z.leb_gt. exact H2.
    + apply Z.ltb_lt in H2. lia.
    + reflexivity.
Qed.

(** ** The setters leave the rest of the world alone *)

Lemma state_eta (u : State) :
  {| search := search u; movies := movies u;
     selectedMovie := selectedMovie u; loadingMovies := loadingMovies u;
     loadingDetails := loadingDetails u; error := error u; page := page u;
     totalResults := totalResults u |} = u.
Proof. destruct u; reflexivity. Qed.

Lemma world_eta (w : World) :
  {| ui := ui w; requests := requests w; console := console w |} = w.
Proof. destruct w; reflexivity. Qed.

(** A key other than Escape passes the listener of the window unnoticed. *)
Lemma bubble_other_key (inner : M unit) k w :
  str_eqb k (js "Escape") = false ->
  bubble inner (onKey k) w = inner w.
Proof.
  intros E. unfold bubble, onKey. rewrite E.
  destruct (inner w) as [[[]|e] w1]; reflexivity.
Qed.

(** Escape on an element whose own handler does nothing closes the modal. *)
Lemma bubble_escape k w :
  bubble (ret tt) (onKey k) w = onKey k w.
Proof. reflexivity. Qed.

Lemma closeDetails_when_closed w :
  selectedMovie (ui w) = None -> closeDetails w = (Ok tt, w).
Proof.
  intros H. unfold closeDetails, setSelectedMovie, modify.
  rewrite <- H, state_eta, world_eta. reflexivity.
Qed.

End Calls.

(* ===================================================================== *)
(** * The claims of the specification *)
(* ===================================================================== *)

(** C1. After a search response that signals failure ([Response] is
    ["False"]) the result collection is empty and the total count is zero,
    whatever the state was and whatever [append] was; the error message is
    the provider's [Error] text, or ["No results"] when that text is absent
    or empty. *)
Theorem failed_search_resets_results
    key net s pageParam append w encoded data :
  truthy (trim (search s)) = true ->
  encodeURIComponent (search s) = Some encoded ->
  search_api net (search_url key encoded pageParam) = Returned data ->
  OmdbSearchResponse.Response data = js "False" ->
  let w' := after (fetchMovies key net s pageParam append) w in
  movies (ui w') = []
  /\ totalResults (ui w') = Num 0
  /\ (forall msg, OmdbSearchResponse.Error data = Some msg -> msg <> [] ->
      error (ui w') = Some msg)
  /\ (OmdbSearchResponse.Error data = None
      \/ OmdbSearchResponse.Error data = Some [] ->
      error (ui w') = Some (js "No results")).
Proof.
  intros H E T F w'. subst w'. unfold after.
  assert (F' : str_eqb (OmdbSearchResponse.Response data) (js "False") = true)
    by (rewrite F; apply str_eqb_refl).
  rewrite (fetchMovies_failure key net s pageParam append w encoded data
             H E T F').
  cbn [snd ui searched movies totalResults error].
  repeat split.
  - intros msg -> Hm. rewrite or_str_some by exact Hm. reflexivity.
  - intros [-> | ->]; reflexivity.
Qed.

Lemma failed_search_resets_results_witness :
  let w' := after (fetchMovies None (Fixtures.always Fixtures.not_found)
                     (ui Fixtures.browsing) 2 true) Fixtures.browsing in
  movies (ui Fixtures.browsing) = Fixtures.page1
  /\ movies (ui w') = []
  /\ totalResults (ui w') = Num 0
  /\ error (ui w') = Some (js "Movie not found!").
Proof.
  pose proof (failed_search_resets_results None
    (Fixtures.always Fixtures.not_found) (ui Fixtures.browsing) 2 true
    Fixtures.browsing (js "batman") Fixtures.not_found
    eq_refl eq_refl eq_refl eq_refl) as [M [T [P _]]].
  split; [reflexivity|]. split; [exact M|]. split; [exact T|].
  apply (P (js "Movie not found!")); [reflexivity | discriminate].
Defined.

(** C2. After a detail response that signals failure the selection is null
    and an error message is set (the provider's [Error] text, or a fixed
    fallback), whichever record was selected before. *)
Theorem failed_details_clear_selection key net id w encoded data :
  truthy id = true ->
  encodeURIComponent id = Some encoded ->
  detail_api net (detail_url key encoded) = Returned data ->
  OmdbDetail.Response data = Some (js "False") ->
  let w' := after (fetchMovieDetails key net id) w in
  selectedMovie (ui w') = None
  /\ error (ui w')
     = Some (or_str (OmdbDetail.Error data) (js "Failed to load movie details."))
  /\ error (ui w') <> None.
Proof.
  intros H E T F w'. subst w'. unfold after.
  assert (F' : detail_failed data = true)
    by (unfold detail_failed; rewrite F; apply str_eqb_refl).
  rewrite (fetchMovieDetails_failure key net id w encoded data H E T F').
  cbn [snd ui looked_up selectedMovie error].
  repeat split. discriminate.
Qed.

Lemma failed_details_clear_selection_witness :
  let w' := after (fetchMovieDetails None Fixtures.omdb (js "badid"))
              Fixtures.viewing in
  selectedMovie (ui Fixtures.viewing) = Some Fixtures.shawshank
  /\ selectedMovie (ui w') = None
  /\ error (ui w') = Some (js "Incorrect IMDb ID.").
Proof.
  pose proof (failed_details_clear_selection None Fixtures.omdb (js "badid")
    Fixtures.viewing (js "badid") Fixtures.bad_id
    eq_refl eq_refl eq_refl eq_refl) as [S [E _]].
  split; [reflexivity|]. split; [exact S | exact E].
Defined.

(** C3. For a non-blank query and a successful search response: with
    [append = false] the result collection is exactly the items of the
    response, with [append = true] it is the previous collection followed by
    those items; the page recorded is the page fetched, which is 1 for a
    search started from the search box; the total count is what [parseInt]
    reads from the response: the integer [n] when the response spells an
    [n] of at most 53 bits, and the nearest double beyond. *)
Theorem successful_search_updates_results
    key net s pageParam append w encoded data :
  truthy (trim (search s)) = true ->
  encodeURIComponent (search s) = Some encoded ->
  search_api net (search_url key encoded pageParam) = Returned data ->
  OmdbSearchResponse.Response data <> js "False" ->
  let w' := after (fetchMovies key net s pageParam append) w in
  let items := or_array (OmdbSearchResponse.Search data) in
  movies (ui w') = (if append then movies (ui w) ++ items else items)
  /\ page (ui w') = pageParam
  /\ totalResults (ui w')
     = parseInt (or_str (OmdbSearchResponse.totalResults data) (js "0")) 10
  /\ (forall n, (Z.abs n <= 2 ^ 53)%Z ->
      OmdbSearchResponse.totalResults data = Some (toString n) ->
      totalResults (ui w') = Num n)
  /\ (pageParam = 1%Z ->
      let w1 := after (searchButton_onClick key net s) w in
      w1 = after (input_onKeyDown key net s (js "Enter")) w
      /\ movies (ui w1) = items /\ page (ui w1) = 1%Z).
Proof.
  intros H E T F w' items. subst w' items. unfold after.
  apply str_eqb_neq in F.
  rewrite (fetchMovies_success key net s pageParam append w encoded data
             H E T F).
  cbn [snd ui searched movies totalResults page].
  split; [reflexivity|]. split; [reflexivity|]. split; [reflexivity|].
  split.
  { intros n B ->. unfold or_str. rewrite toString_truthy.
    apply parseInt_toString. exact B. }
  intros ->. unfold searchButton_onClick, input_onKeyDown.
  rewrite str_eqb_refl.
  rewrite (fetchMovies_success key net s 1 false w encoded data H E T F).
  split; [reflexivity|]. split; reflexivity.
Qed.

Lemma successful_search_updates_results_witness :
  let w1 := after (fetchMovies None Fixtures.omdb (ui Fixtures.browsing)
                     2 true) Fixtures.browsing in
  movies (ui w1) = Fixtures.page1 ++ Fixtures.page2
  /\ page (ui w1) = 2%Z
  /\ totalResults (ui w1) = Num 5.
Proof.
  pose proof (successful_search_updates_results None Fixtures.omdb
    (ui Fixtures.browsing) 2 true Fixtures.browsing (js "batman")
    (Fixtures.found Fixtures.page2) eq_refl eq_refl eq_refl)
    as P.
  destruct P as [M [Pg [_ [N _]]]]; [discriminate|].
  split; [exact M|]. split; [exact Pg|].
  apply (N 5%Z); [vm_compute; discriminate | reflexivity].
Defined.

(** C5. A search whose query is blank after trimming (empty, or white space
    only) issues no request and changes nothing: the whole world, that is
    every state cell, the request log and the console, is what it was. *)
Theorem blank_search_is_noop key net s pageParam append w :
  trim (search s) = [] ->
  forallb is_white_space (search s) = true
  /\ fetchMovies key net s pageParam append w = (Ok tt, w)
  /\ (s = ui w ->
      dispatch key net SearchClick w = (Ok tt, w)
      /\ dispatch key net (InputKeyDown (js "Enter")) w = (Ok tt, w)).
Proof.
  intros H. split; [apply trim_nil_iff; exact H|].
  apply truthy_false_iff in H.
  split; [apply fetchMovies_blank; exact H|].
  intros ->. unfold dispatch, searchButton_onClick.
  rewrite bubble_other_key by reflexivity.
  unfold input_onKeyDown. rewrite str_eqb_refl.
  split; apply fetchMovies_blank; exact H.
Qed.

Lemma blank_search_is_noop_witness :
  let w := after (setSearch [0x20; 0x09; 0xA0]%N) Fixtures.browsing in
  fetchMovies None Fixtures.omdb (ui w) 1 false w = (Ok tt, w)
  /\ dispatch None Fixtures.omdb SearchClick w = (Ok tt, w).
Proof.
  pose proof (blank_search_is_noop None Fixtures.omdb
    (ui (after (setSearch [0x20; 0x09; 0xA0]%N) Fixtures.browsing)) 1 false
    (after (setSearch [0x20; 0x09; 0xA0]%N) Fixtures.browsing)
    eq_refl) as [_ [F D]].
  split; [exact F|]. apply (D eq_refl).
Defined.

(** C6. [posterFor] returns the placeholder for [undefined], for the empty
    string and for the sentinel ["N/A"] exactly as spelled, and returns every
    other non-empty string unchanged. *)
Theorem posterFor_spec :
  posterFor None = placeholder
  /\ posterFor (Some []) = placeholder
  /\ posterFor (Some (js "N/A")) = placeholder
  /\ (forall p, p <> [] -> p <> js "N/A" -> posterFor (Some p) = p).
Proof.
  split; [reflexivity|]. split; [reflexivity|]. split; [reflexivity|].
  intros p Hne Hna. unfold posterFor.
  apply truthy_true_iff in Hne. apply str_eqb_neq in Hna.
  rewrite Hne, Hna. reflexivity.
Qed.

Lemma posterFor_spec_witness :
  posterFor (Some (js "n/a")) = js "n/a"
  /\ posterFor (Some (js "N/A ")) = js "N/A "
  /\ posterFor (Some (js "https://example.org/p.jpg"))
     = js "https://example.org/p.jpg".
Proof.
  destruct posterFor_spec as [_ [_ [_ P]]].
  split; [|split]; apply P; discriminate.
Defined.

(* Two of the claims, on the load-more control and on the loading flags,
   are stated further down, after the lemmas on a call cut at its await,
   which they use. *)

(** C8. [closeDetails] leaves a null selection whatever the state was and
    changes nothing else; doing it twice is doing it once; the close button,
    a click on the overlay and the Escape key all perform exactly it. *)
Theorem closeDetails_spec key net w :
  let w' := after closeDetails w in
  selectedMovie (ui w') = None
  /\ after closeDetails w' = w'
  /\ (search (ui w') = search (ui w) /\ movies (ui w') = movies (ui w)
      /\ page (ui w') = page (ui w)
      /\ totalResults (ui w') = totalResults (ui w)
      /\ error (ui w') = error (ui w)
      /\ loadingMovies (ui w') = loadingMovies (ui w)
      /\ loadingDetails (ui w') = loadingDetails (ui w)
      /\ requests w' = requests w /\ console w' = console w)
  /\ dispatch key net CloseClick w = closeDetails w
  /\ dispatch key net OverlayClick w = closeDetails w
  /\ dispatch key net (WindowKeyDown (js "Escape")) w = closeDetails w.
Proof.
  cbv zeta. split; [reflexivity|]. split; [reflexivity|].
  split; [repeat split|].
  unfold dispatch, showModal, closeButton_onClick, overlay_onClick, onKey.
  rewrite str_eqb_refl. fold closeDetails.
  destruct (selectedMovie (ui w)) eqn:S.
  - split; [reflexivity|]. split; reflexivity.
  - rewrite (closeDetails_when_closed w S).
    split; [reflexivity|]. split; reflexivity.
Qed.

(** C9. A search response that signals failure leaves the recorded page
    number as it was.  A later [loadMore] computes its next page from that
    value: a request it issues is for that page plus one.  (Called on the
    state the failure leaves, with an empty collection and a zero count,
    [loadMore] stops at its own test.) *)
Theorem failed_search_keeps_page
    key net s pageParam append w encoded data :
  truthy (trim (search s)) = true ->
  encodeURIComponent (search s) = Some encoded ->
  search_api net (search_url key encoded pageParam) = Returned data ->
  OmdbSearchResponse.Response data = js "False" ->
  let w' := after (fetchMovies key net s pageParam append) w in
  page (ui w') = page (ui w)
  /\ (forall net2 s2 w2,
        page s2 = page (ui w') ->
        requests (after (loadMore key net2 s2) w2) = requests w2
        \/ exists enc2,
             requests (after (loadMore key net2 s2) w2)
             = requests w2 ++ [search_url key enc2 (page (ui w) + 1)])
  /\ (forall net2, loadMore key net2 (ui w') w' = (Ok tt, w')).
Proof.
  intros H E T F w'. subst w'. unfold after.
  assert (F' : str_eqb (OmdbSearchResponse.Response data) (js "False") = true)
    by (rewrite F; apply str_eqb_refl).
  rewrite (fetchMovies_failure key net s pageParam append w encoded data
             H E T F').
  cbn [snd ui searched page].
  split; [reflexivity|]. split.
  - intros net2 s2 w2 P.
    destruct (ge (Z.of_nat (List.length (movies s2))) (totalResults s2)) eqn:G.
    + left. rewrite (loadMore_stops key net2 s2 w2 G). reflexivity.
    + rewrite (loadMore_continues key net2 s2 w2 G).
      destruct (fetchMovies_requests key net2 s2 (page s2 + 1) true w2)
        as [R | [enc2 [_ [_ R]]]].
      * left. exact R.
      * right. exists enc2. rewrite <- P. exact R.
  - intros net2. apply loadMore_stops. reflexivity.
Qed.

Lemma failed_search_keeps_page_witness :
  let w := after (loadMore None Fixtures.omdb (ui Fixtures.browsing))
             Fixtures.browsing in
  let w' := after (fetchMovies None (Fixtures.always Fixtures.not_found)
                     (ui w) 3 true) w in
  page (ui w) = 2%Z /\ page (ui w') = 2%Z.
Proof.
  cbv zeta.
  set (w := after (loadMore None Fixtures.omdb (ui Fixtures.browsing))
              Fixtures.browsing).
  destruct (failed_search_keeps_page None
              (Fixtures.always Fixtures.not_found) (ui w) 3 true w
              (js "batman") Fixtures.not_found
              eq_refl eq_refl eq_refl eq_refl) as [P _].
  split; [reflexivity | exact P].
Defined.

(** C10. [fetchMovies] has no query parameter: a request it issues is built
    from the query text of the state it closes over.  So when the query text
    is edited and the load-more control is then used, the page requested is
    the next page of the edited text, and its items are appended to the
    collection that the earlier query produced. *)
Theorem loadMore_uses_current_query key net w q encoded data :
  showLoadMore (ui w) = true ->
  truthy (trim q) = true ->
  encodeURIComponent q = Some encoded ->
  search_api net (search_url key encoded (page (ui w) + 1)) = Returned data ->
  OmdbSearchResponse.Response data <> js "False" ->
  let w1 := after (dispatch key net (InputChange q)) w in
  let w2 := after (dispatch key net LoadMoreClick) w1 in
  (search (ui w1) = q /\ movies (ui w1) = movies (ui w))
  /\ requests w2 = requests w ++ [search_url key encoded (page (ui w) + 1)]
  /\ movies (ui w2)
     = movies (ui w) ++ or_array (OmdbSearchResponse.Search data)
  /\ (forall s pageParam append w0,
        requests (after (fetchMovies key net s pageParam append) w0)
          = requests w0
        \/ exists enc,
             encodeURIComponent (search s) = Some enc
             /\ requests (after (fetchMovies key net s pageParam append) w0)
                = requests w0 ++ [search_url key enc pageParam]).
Proof.
  intros V H E T F. cbv zeta.
  apply str_eqb_neq in F.
  destruct (showLoadMore_passes_guard (ui w) V) as [_ G].
  split; [split; reflexivity|].
  set (w1 := after (dispatch key net (InputChange q)) w).
  assert (V1 : showLoadMore (ui w1) = true) by exact V.
  assert (G1 : ge (Z.of_nat (List.length (movies (ui w1))))
                  (totalResults (ui w1)) = false) by exact G.
  assert (H1 : truthy (trim (search (ui w1))) = true) by exact H.
  assert (E1 : encodeURIComponent (search (ui w1)) = Some encoded)
    by exact E.
  assert (T1 : search_api net (search_url key encoded (page (ui w1) + 1))
               = Returned data) by exact T.
  assert (R : after (dispatch key net LoadMoreClick) w1
              = snd (fetchMovies key net (ui w1) (page (ui w1) + 1) true w1)).
  { unfold after, dispatch. rewrite V1. unfold loadMoreButton_onClick.
    rewrite (loadMore_continues key net (ui w1) w1 G1). reflexivity. }
  rewrite (fetchMovies_success key net (ui w1) (page (ui w1) + 1) true w1
             encoded data H1 E1 T1 F) in R.
  rewrite R. split; [reflexivity|]. split; [reflexivity|].
  intros s pageParam append w0.
  destruct (fetchMovies_requests key net s pageParam append w0)
    as [N | [enc [_ [En N]]]]; [left; exact N|].
  right. exists enc. split; assumption.
Qed.

Lemma loadMore_uses_current_query_witness :
  let w := Fixtures.browsing in
  let w1 := after (dispatch None Fixtures.omdb (InputChange (js "superman")))
              w in
  let w2 := after (dispatch None Fixtures.omdb LoadMoreClick) w1 in
  search (ui w) = js "batman"
  /\ requests w2
     = requests w
       ++ [js "https://www.omdbapi.com/?s=superman&apikey=3bc93085&page=2"]
  /\ movies (ui w2) = Fixtures.page1 ++ [Fixtures.movie "tt9"].
Proof.
  destruct (loadMore_uses_current_query None Fixtures.omdb Fixtures.browsing
              (js "superman") (js "superman")
              (Fixtures.found [Fixtures.movie "tt9"])
              eq_refl eq_refl eq_refl eq_refl) as [_ [R [M _]]];
    [discriminate|].
  split; [reflexivity|]. split; [exact R | exact M].
Defined.

(** ** Remarks: the thrown path

    A request that throws is not a response.  [fetchMovies] then sets its
    fixed message and leaves the collection, the count and the page alone;
    [fetchMovieDetails] sets its fixed message and leaves the selection
    alone. *)

Example details_offline :
  let w := after (fetchMovieDetails None Fixtures.offline (js "tt1"))
             Fixtures.viewing in
  selectedMovie (ui w) = Some Fixtures.shawshank
  /\ error (ui w) = Some (js "Failed to fetch movie details.")
  /\ loadingDetails (ui w) = false
  /\ console w = [TypeError].
Proof. vm_compute. repeat split. Qed.

(** X8. A search request that throws (no network, a body that is not JSON)
    leaves the result collection, the total count and the page as they were
    and sets the fixed message. *)
Lemma fetchMovies_thrown_keeps_results
    key net s pageParam append w encoded e :
  truthy (trim (search s)) = true ->
  encodeURIComponent (search s) = Some encoded ->
  search_api net (search_url key encoded pageParam) = Threw e ->
  let w' := after (fetchMovies key net s pageParam append) w in
  movies (ui w') = movies (ui w)
  /\ totalResults (ui w') = totalResults (ui w)
  /\ page (ui w') = page (ui w)
  /\ error (ui w')
     = Some (js "Failed to fetch movies. Check your network or API key.").
Proof.
  intros H E T. cbv zeta. unfold after.
  rewrite (fetchMovies_threw key net s pageParam append w encoded e H E T).
  repeat split.
Qed.

(* ===================================================================== *)
(** * Further properties of the page *)
(* ===================================================================== *)

(** ** The view *)

Section ViewFacts.

Lemma starts_with_app (p s : jsstring) :
  starts_with p s = true -> s = p ++ skipn (List.length p) s.
Proof.
  revert s; induction p as [|x p IH]; intros s H; [reflexivity|].
  destruct s as [|y s]; [discriminate|].
  cbn [starts_with] in H. apply andb_true_iff in H. destruct H as [E H].
  apply N.eqb_eq in E. subst y. cbn [List.length skipn app].
  f_equal. apply IH. exact H.
Qed.

Lemma split_go_skip (sep : jsstring) (s : jsstring) :
  forall k cur, (k <= List.length s)%nat ->
  split_go sep k cur s = split_go sep 0 cur (skipn k s).
Proof.
  induction s as [|c r IH]; intros k cur L.
  - destruct k; [reflexivity | cbn in L; lia].
  - destruct k as [|k]; [reflexivity|].
    cbn [split_go skipn]. apply IH. cbn in L. lia.
Qed.

Lemma split_go_nonempty (sep : jsstring) (s : jsstring) :
  forall k cur, split_go sep k cur s <> [].
Proof.
  induction s as [|c r IH]; intros k cur; cbn [split_go]; [discriminate|].
  destruct k; [|apply IH].
  destruct (starts_with sep (c :: r)); [discriminate | apply IH].
Qed.

Lemma join_cons (sep x : jsstring) (l : list jsstring) :
  l <> [] -> join sep (x :: l) = x ++ sep ++ join sep l.
Proof.
  destruct l as [|y l]; [congruence|]. intros _.
  cbn [join flat_map]. rewrite <- app_assoc. reflexivity.
Qed.

Lemma join_split_go (sep : jsstring) :
  sep <> [] ->
  forall n s cur, (List.length s <= n)%nat ->
  join sep (split_go sep 0 cur s) = rev cur ++ s.
Proof.
  intros NE. induction n as [|n IH]; intros s cur L.
  - destruct s; [|cbn in L; lia]. cbn. rewrite app_nil_r. reflexivity.
  - destruct s as [|c r]; [cbn; rewrite app_nil_r; reflexivity|].
    cbn [split_go]. destruct (starts_with sep (c :: r)) eqn:SW.
    + destruct sep as [|x sep']; [congruence|].
      pose proof (starts_with_app _ _ SW) as E.
      cbn [List.length skipn app] in E. injection E as Ec E. subst x.
      replace (List.length (c :: sep') - 1)%nat with (List.length sep')
        by (cbn; lia).
      assert (Lr : (List.length sep' <= List.length r)%nat).
      { pose proof (f_equal (@List.length N) E) as EL.
        rewrite length_app in EL. lia. }
      rewrite (split_go_skip (c :: sep') r (List.length sep') [] Lr).
      rewrite join_cons by apply split_go_nonempty.
      rewrite IH.
      * cbn [rev app]. rewrite <- E. reflexivity.
      * rewrite length_skipn. cbn in L. lia.
    + rewrite IH by (cbn in L; lia).
      cbn [rev]. rewrite <- app_assoc. reflexivity.
Qed.

Lemma starts_with_app_r (p b s : jsstring) :
  starts_with p b = true -> starts_with p (b ++ s) = true.
Proof.
  revert b; induction p as [|x p IH]; intros b H; [reflexivity|].
  destruct b as [|y b]; [discriminate|].
  cbn [starts_with app] in *. apply andb_true_iff in H. destruct H as [E H].
  rewrite E, (IH b H). reflexivity.
Qed.

Lemma includes_false (x p : jsstring) :
  (forall a b, x = a ++ b -> starts_with p b = false) ->
  includes x p = false.
Proof.
  induction x as [|c x IH]; intros H.
  - cbn [includes]. rewrite (H [] [] eq_refl). reflexivity.
  - cbn [includes]. rewrite (H [] (c :: x) eq_refl). cbn [orb].
    apply IH. intros a b E. apply (H (c :: a) b). rewrite E. reflexivity.
Qed.

Lemma split_go_pieces (sep : jsstring) :
  sep <> [] ->
  forall n s cur, (List.length s <= n)%nat ->
  (forall a b, rev cur = a ++ b -> b <> [] ->
               starts_with sep (b ++ s) = false) ->
  Forall (fun piece => includes piece sep = false) (split_go sep 0 cur s).
Proof.
  intros NE.
  assert (piece_ok : forall cur s,
    (forall a b, rev cur = a ++ b -> b <> [] ->
                 starts_with sep (b ++ s) = false) ->
    includes (rev cur) sep = false).
  { intros cur s I. apply includes_false. intros a b E.
    destruct b as [|y b].
    - destruct sep; [congruence | reflexivity].
    - destruct (starts_with sep (y :: b)) eqn:SW; [|reflexivity].
      rewrite <- (I a (y :: b) E ltac:(discriminate)).
      symmetry. apply starts_with_app_r. exact SW. }
  induction n as [|n IH]; intros s cur L I.
  - destruct s; [|cbn in L; lia]. cbn [split_go].
    constructor; [|constructor]. apply (piece_ok cur []). exact I.
  - destruct s as [|c r].
    { cbn [split_go]. constructor; [|constructor].
      apply (piece_ok cur []). exact I. }
    cbn [split_go]. destruct (starts_with sep (c :: r)) eqn:SW.
    + constructor; [apply (piece_ok cur (c :: r)); exact I|].
      destruct sep as [|x sep']; [congruence|].
      pose proof (starts_with_app _ _ SW) as E.
      cbn [List.length skipn app] in E. injection E as Ec E. subst x.
      replace (List.length (c :: sep') - 1)%nat with (List.length sep')
        by (cbn; lia).
      assert (Lr : (List.length sep' <= List.length r)%nat).
      { pose proof (f_equal (@List.length N) E) as EL.
        rewrite length_app in EL. lia. }
      rewrite (split_go_skip (c :: sep') r (List.length sep') [] Lr).
      apply IH.
      * rewrite length_skipn. cbn in L. lia.
      * intros a b E' Hb. cbn [rev] in E'.
        destruct a; destruct b; try discriminate. congruence.
    + apply IH; [cbn in L; lia|].
      intros a b E Hb. cbn [rev] in E.
      destruct (exists_last Hb) as [b' [y Eb]]. subst b.
      rewrite app_assoc in E. apply app_inj_tail in E. destruct E as [E ->].
      rewrite <- app_assoc. cbn [app].
      destruct b' as [|z b'].
      * exact SW.
      * apply (I a (z :: b')); [exact E | discriminate].
Qed.

(** [split] and [join] with the same non-empty separator are inverse to each
    other on the way back, and no piece holds the separator. *)
Lemma join_split (s sep : jsstring) :
  sep <> [] ->
  join sep (split s sep) = s
  /\ split s sep <> []
  /\ Forall (fun piece => includes piece sep = false) (split s sep).
Proof.
  intros NE. unfold split. destruct sep as [|x sep'] eqn:Es; [congruence|].
  rewrite <- Es in *. split; [|split].
  - apply (join_split_go sep NE (List.length s) s []). lia.
  - apply split_go_nonempty.
  - apply (split_go_pieces sep NE (List.length s) s []); [lia|].
    intros a b E Hb. destruct a; destruct b; try discriminate. congruence.
Qed.

End ViewFacts.

(** X17. The genre chips of the modal: when the selected record has a [Genre],
    joining the chips with [", "] gives that text back, there is at least
    one chip, and no chip holds [", "]; without a [Genre], or without a
    selection, there is no chip. *)
Theorem genres_spec (sel : option OmdbDetail.t) :
  (forall d g, sel = Some d -> OmdbDetail.Genre d = Some g ->
     join (js ", ") (View.genres sel) = g
     /\ View.genres sel <> []
     /\ Forall (fun chip => includes chip (js ", ") = false)
          (View.genres sel))
  /\ (sel = None -> View.genres sel = [])
  /\ (forall d, sel = Some d -> OmdbDetail.Genre d = None ->
      View.genres sel = []).
Proof.
  split; [|split].
  - intros d g -> G. unfold View.genres. rewrite G.
    apply join_split. discriminate.
  - intros ->. reflexivity.
  - intros d -> G. unfold View.genres. rewrite G. reflexivity.
Qed.

Lemma genres_spec_witness :
  View.genres (Some Fixtures.shawshank) = [js "Drama"]
  /\ join (js ", ") (View.genres (Some Fixtures.shawshank)) = js "Drama"
  /\ View.genres None = [].
Proof.
  destruct (genres_spec (Some Fixtures.shawshank)) as [A _].
  destruct (A Fixtures.shawshank (js "Drama") eq_refl eq_refl) as [J _].
  destruct (genres_spec None) as [_ [B _]].
  split; [reflexivity|]. split; [exact J | exact (B eq_refl)].
Defined.

(** X15. What [posterFor] returns can always be used as an image source: it is
    never the empty string and never the sentinel ["N/A"], and resolving it
    again changes nothing. *)
Theorem posterFor_usable (poster : option jsstring) :
  posterFor poster <> []
  /\ posterFor poster <> js "N/A"
  /\ posterFor (Some (posterFor poster)) = posterFor poster.
Proof.
  assert (P : posterFor poster <> [] /\ posterFor poster <> js "N/A").
  { unfold posterFor. destruct poster as [p|]; [|split; discriminate].
    destruct (truthy p) eqn:T; [|split; discriminate].
    destruct (str_eqb p (js "N/A")) eqn:E; [split; discriminate|].
    cbn [andb negb]. split.
    - apply truthy_true_iff. exact T.
    - apply str_eqb_neq. exact E. }
  destruct P as [P1 P2]. split; [exact P1|]. split; [exact P2|].
  unfold posterFor at 1.
  apply truthy_true_iff in P1. apply str_eqb_neq in P2.
  rewrite P1, P2. reflexivity.
Qed.

(** X16. The plot shown in the modal is the [Plot] of the selected record when
    that is a non-empty text other than ["N/A"], and the fixed text
    otherwise; it is never empty and never ["N/A"]. *)
Theorem plot_spec (sel : option OmdbDetail.t) :
  View.plot sel <> [] /\ View.plot sel <> js "N/A"
  /\ (forall d p, sel = Some d -> OmdbDetail.Plot d = Some p ->
      p <> [] -> p <> js "N/A" -> View.plot sel = p)
  /\ (View.plot sel = js "Plot not available."
      \/ exists d, sel = Some d /\ OmdbDetail.Plot d = Some (View.plot sel)).
Proof.
  assert (K : forall d p, sel = Some d -> OmdbDetail.Plot d = Some p ->
                p <> [] -> p <> js "N/A" -> View.plot sel = p).
  { intros d p -> P NE NA. unfold View.plot. rewrite P.
    apply truthy_true_iff in NE. apply str_eqb_neq in NA.
    rewrite NE, NA. reflexivity. }
  assert (D : View.plot sel = js "Plot not available."
              \/ exists d, sel = Some d
                   /\ OmdbDetail.Plot d = Some (View.plot sel)
                   /\ View.plot sel <> [] /\ View.plot sel <> js "N/A").
  { unfold View.plot. destruct sel as [d|]; [|left; reflexivity].
    destruct (OmdbDetail.Plot d) as [p|] eqn:P; [|left; reflexivity].
    destruct (truthy p) eqn:T; [|left; reflexivity].
    destruct (str_eqb p (js "N/A")) eqn:E; [left; reflexivity|].
    cbn [andb negb]. right. exists d.
    split; [reflexivity|]. split; [exact P|].
    split; [apply truthy_true_iff; exact T | apply str_eqb_neq; exact E]. }
  destruct D as [D | [d [S [P [NE NA]]]]].
  - rewrite D. split; [discriminate|]. split; [discriminate|].
    split; [rewrite <- D; exact K | left; reflexivity].
  - split; [exact NE|]. split; [exact NA|]. split; [exact K|].
    right. exists d. split; assumption.
Qed.

Lemma plot_spec_witness :
  View.plot (Some Fixtures.shawshank) = js "Two imprisoned men bond."
  /\ View.plot (Some Fixtures.bad_id) = js "Plot not available.".
Proof.
  destruct (plot_spec (Some Fixtures.shawshank)) as [_ [_ [A _]]].
  split; [|reflexivity].
  apply (A Fixtures.shawshank (js "Two imprisoned men bond."));
    try reflexivity; discriminate.
Defined.

(** ** The scroll lock *)

Lemma commits_snoc sels sel b :
  ScrollLock.commits (sels ++ [sel]) b
  = ScrollLock.commit sel (ScrollLock.commits sels b).
Proof. unfold ScrollLock.commits. rewrite fold_left_app. reflexivity. Qed.

(** The value that the page would give back to [overflow] is the one it
    found when it was mounted, whatever was selected since. *)
Lemma scroll_lock_invariant o sels :
  let b := ScrollLock.commits sels (ScrollLock.mount o) in
  ScrollLock.overflow (ScrollLock.run_cleanup b) = o
  /\ (ScrollLock.cleanup b = None -> last sels None = None)
  /\ (ScrollLock.cleanup b <> None ->
      ScrollLock.overflow b = js "hidden" /\ last sels None <> None).
Proof.
  induction sels as [|sel sels IH] using rev_ind.
  - cbn. split; [reflexivity|]. split; [reflexivity | congruence].
  - cbv zeta in *. rewrite commits_snoc, last_last.
    destruct IH as [O _].
    unfold ScrollLock.commit.
    set (b := ScrollLock.commits sels (ScrollLock.mount o)) in *.
    destruct sel as [d|]; cbn [ScrollLock.effect].
    + unfold ScrollLock.run_cleanup at 1.
      cbn [ScrollLock.cleanup ScrollLock.overflow].
      split; [exact O|]. split; [discriminate|].
      intros _. split; [reflexivity | discriminate].
    + unfold ScrollLock.run_cleanup at 1.
      cbn [ScrollLock.cleanup ScrollLock.overflow].
      split; [exact O|]. split; [reflexivity | congruence].
Qed.

(** X18. While a film is selected the page does not scroll ([overflow] is
    ["hidden"]); once the selection is null again [overflow] is what it was
    before the page was mounted, however many films were opened in between,
    one after the other or one over the other; unmounting restores it too. *)
Theorem scroll_lock_restores o sels :
  let b := ScrollLock.commits sels (ScrollLock.mount o) in
  (last sels None = None -> ScrollLock.overflow b = o)
  /\ (last sels None <> None -> ScrollLock.overflow b = js "hidden")
  /\ ScrollLock.overflow (ScrollLock.unmount b) = o.
Proof.
  cbv zeta. destruct (scroll_lock_invariant o sels) as [O [N S]].
  cbv zeta in *.
  set (b := ScrollLock.commits sels (ScrollLock.mount o)) in *.
  split; [|split].
  - intros L. destruct (ScrollLock.cleanup b) as [prev|] eqn:C.
    + destruct S as [_ S]; [congruence | congruence].
    + unfold ScrollLock.run_cleanup in O. rewrite C in O. exact O.
  - intros L. destruct (ScrollLock.cleanup b) as [prev|] eqn:C.
    + apply S. congruence.
    + exfalso. apply L, N. reflexivity.
  - exact O.
Qed.

Lemma scroll_lock_restores_witness :
  let opened := [Some Fixtures.shawshank; Some Fixtures.bad_id] in
  ScrollLock.overflow
    (ScrollLock.commits opened (ScrollLock.mount (js "auto"))) = js "hidden"
  /\ ScrollLock.overflow
       (ScrollLock.commits (opened ++ [None]) (ScrollLock.mount (js "auto")))
     = js "auto".
Proof.
  cbv zeta.
  destruct (scroll_lock_restores (js "auto")
              [Some Fixtures.shawshank; Some Fixtures.bad_id]) as [_ [H _]].
  destruct (scroll_lock_restores (js "auto")
              ([Some Fixtures.shawshank; Some Fixtures.bad_id] ++ [None]))
    as [R _].
  split; [apply H; discriminate | apply R; reflexivity].
Defined.

(** ** Every way out of a call *)

Section Outcomes.

Variable key : option jsstring.
Variable net : Network.

#[local] Arguments js : simpl never.
#[local] Arguments search_url : simpl never.
#[local] Arguments detail_url : simpl never.
#[local] Arguments trim : simpl never.
#[local] Arguments encodeURIComponent : simpl never.
#[local] Arguments parseInt : simpl never.
#[local] Arguments or_str : simpl never.
#[local] Arguments or_array : simpl never.
#[local] Arguments str_eqb : simpl never.

Lemma or_str_nonempty (a : option jsstring) (d : jsstring) :
  d <> [] -> or_str a d <> [].
Proof.
  intros D. unfold or_str. destruct a as [v|]; [|exact D].
  destruct (truthy v) eqn:T; [|exact D]. apply truthy_true_iff. exact T.
Qed.

(** A call of [fetchMovies] either returns at its guard, or ends in a state
    [searched ...] with the request log and the console extended. *)
Lemma fetchMovies_outcomes s pageParam append w :
  (truthy (trim (search s)) = false
   /\ fetchMovies key net s pageParam append w = (Ok tt, w))
  \/ exists ms e pg n rq cs,
       fetchMovies key net s pageParam append w
       = (Ok tt, {| ui := searched (ui w) ms e pg n;
                    requests := requests w ++ rq;
                    console := console w ++ cs |})
       /\ truthy (trim (search s)) = true
       /\ Paging.message e
       /\ (pg = page (ui w) \/ pg = pageParam)
       /\ (rq = []
           \/ exists encoded,
                encodeURIComponent (search s) = Some encoded
                /\ rq = [search_url key encoded pageParam]).
Proof.
  destruct (truthy (trim (search s))) eqn:H.
  2:{ left. split; [reflexivity|]. apply fetchMovies_blank. exact H. }
  right.
  destruct (encodeURIComponent (search s)) as [encoded|] eqn:E.
  - destruct (search_api net (search_url key encoded pageParam))
      as [e|data] eqn:T.
    + rewrite (fetchMovies_threw key net s pageParam append w encoded e H E T).
      do 6 eexists. split; [reflexivity|]. split; [reflexivity|].
      split; [right; eexists; split; [reflexivity | discriminate]|].
      split; [left; reflexivity|]. right. exists encoded. split; reflexivity.
    + destruct (str_eqb (OmdbSearchResponse.Response data) (js "False")) eqn:F.
      * rewrite (fetchMovies_failure key net s pageParam append w encoded data
                   H E T F).
        exists [], (Some (or_str (OmdbSearchResponse.Error data)
                                 (js "No results"))),
          (page (ui w)), (Num 0), [search_url key encoded pageParam], [].
        rewrite app_nil_r.
        split; [reflexivity|]. split; [reflexivity|].
        split; [right; eexists; split;
                [reflexivity | apply or_str_nonempty; discriminate]|].
        split; [left; reflexivity|]. right. exists encoded. split; reflexivity.
      * rewrite (fetchMovies_success key net s pageParam append w encoded data
                   H E T F).
        do 4 eexists. exists [search_url key encoded pageParam], [].
        rewrite app_nil_r.
        split; [reflexivity|]. split; [reflexivity|].
        split; [left; reflexivity|].
        split; [right; reflexivity|]. right. exists encoded. split; reflexivity.
  - rewrite (fetchMovies_uri_error key net s pageParam append w H E).
    do 4 eexists. exists [], [URIError]. rewrite app_nil_r.
    split; [reflexivity|]. split; [reflexivity|].
    split; [right; eexists; split; [reflexivity | discriminate]|].
    split; [left; reflexivity | left; reflexivity].
Qed.

Lemma fetchMovieDetails_outcomes id w :
  (id = [] /\ fetchMovieDetails key net id w = (Ok tt, w))
  \/ exists sel e rq cs,
       fetchMovieDetails key net id w
       = (Ok tt, {| ui := looked_up (ui w) sel e;
                    requests := requests w ++ rq;
                    console := console w ++ cs |})
       /\ id <> []
       /\ Paging.message e
       /\ (rq = []
           \/ exists encoded,
                encodeURIComponent id = Some encoded
                /\ rq = [detail_url key encoded]).
Proof.
  destruct (truthy id) eqn:H.
  2:{ left. apply truthy_false_iff in H. subst id. split; reflexivity. }
  right. assert (NE : id <> []) by (apply truthy_true_iff; exact H).
  destruct (encodeURIComponent id) as [encoded|] eqn:E.
  - destruct (detail_api net (detail_url key encoded)) as [e|data] eqn:T.
    + rewrite (fetchMovieDetails_threw key net id w encoded e H E T).
      do 4 eexists. split; [reflexivity|]. split; [exact NE|].
      split; [right; eexists; split; [reflexivity | discriminate]|].
      right. exists encoded. split; reflexivity.
    + destruct (detail_failed data) eqn:F.
      * rewrite (fetchMovieDetails_failure key net id w encoded data H E T F).
        exists None, (Some (or_str (OmdbDetail.Error data)
                                   (js "Failed to load movie details."))),
          [detail_url key encoded], [].
        rewrite app_nil_r. split; [reflexivity|]. split; [exact NE|].
        split; [right; eexists; split;
                [reflexivity | apply or_str_nonempty; discriminate]|].
        right. exists encoded. split; reflexivity.
      * rewrite (fetchMovieDetails_success key net id w encoded data H E T F).
        exists (Some data), None, [detail_url key encoded], [].
        rewrite app_nil_r. split; [reflexivity|]. split; [exact NE|].
        split; [left; reflexivity|].
        right. exists encoded. split; reflexivity.
  - rewrite (fetchMovieDetails_uri_error key net id w H E).
    do 2 eexists. exists [], [URIError]. rewrite app_nil_r.
    split; [reflexivity|]. split; [exact NE|].
    split; [right; eexists; split; [reflexivity | discriminate]|].
    left; reflexivity.
Qed.

Lemma loadMore_outcomes s w :
  loadMore key net s w = (Ok tt, w)
  \/ loadMore key net s w = fetchMovies key net s (page s + 1) true w.
Proof.
  destruct (ge (Z.of_nat (List.length (movies s))) (totalResults s)) eqn:G.
  - left. apply loadMore_stops. exact G.
  - right. apply loadMore_continues. exact G.
Qed.

End Outcomes.

(** ** Every way out of an event *)

Section Events.

Variable key : option jsstring.

Lemma search_url_origin encoded pageParam :
  starts_with Paging.origin (search_url key encoded pageParam) = true.
Proof. reflexivity. Qed.

Lemma detail_url_origin encoded :
  starts_with Paging.origin (detail_url key encoded) = true.
Proof. reflexivity. Qed.

Lemma fetchMovies_step net w pageParam append :
  pageParam = 1%Z \/ pageParam = (page (ui w) + 1)%Z ->
  fst (fetchMovies key net (ui w) pageParam append w) = Ok tt
  /\ Paging.step w (snd (fetchMovies key net (ui w) pageParam append w)).
Proof.
  intros P.
  destruct (fetchMovies_outcomes key net (ui w) pageParam append w)
    as [[_ E] | [ms [e [pg [n [rq [cs [E [_ [M [Pg R]]]]]]]]]]];
    rewrite E; (split; [reflexivity|]); cbn [snd].
  - constructor.
  - constructor.
    + exact M.
    + destruct Pg as [-> | ->]; [left; reflexivity|].
      right. exact P.
    + destruct R as [-> | [encoded [_ ->]]]; [left; reflexivity|].
      right. eexists. split; [reflexivity | apply search_url_origin].
Qed.

Lemma fetchMovieDetails_step net w id :
  fst (fetchMovieDetails key net id w) = Ok tt
  /\ Paging.step w (snd (fetchMovieDetails key net id w)).
Proof.
  destruct (fetchMovieDetails_outcomes key net id w)
    as [[_ E] | [sel [e [rq [cs [E [_ [M R]]]]]]]];
    rewrite E; (split; [reflexivity|]); cbn [snd].
  - constructor.
  - constructor; [exact M|].
    destruct R as [-> | [encoded [_ ->]]]; [left; reflexivity|].
    right. eexists. split; [reflexivity | apply detail_url_origin].
Qed.

Lemma dispatch_step net e w :
  fst (dispatch key net e w) = Ok tt /\ Paging.step w (snd (dispatch key net e w)).
Proof.
  destruct e as [v | k | | i | i k | | k | | ]; unfold dispatch.
  - split; [reflexivity | apply Paging.step_typed].
  - unfold input_onKeyDown. destruct (str_eqb k (js "Enter")) eqn:En.
    + apply str_eqb_eq in En. subst k.
      rewrite bubble_other_key by reflexivity.
      apply fetchMovies_step. left; reflexivity.
    + rewrite bubble_escape. unfold onKey.
      destruct (str_eqb k (js "Escape")).
      * split; [reflexivity | apply Paging.step_closed].
      * split; [reflexivity | constructor].
  - apply fetchMovies_step. left; reflexivity.
  - destruct (nth_error (movies (ui w)) i) as [m|].
    + apply fetchMovieDetails_step.
    + split; [reflexivity | constructor].
  - destruct (nth_error (movies (ui w)) i) as [m|].
    + unfold card_onKeyDown.
      destruct (str_eqb k (js "Enter") || str_eqb k (js " ")) eqn:En.
      * assert (Esc : str_eqb k (js "Escape") = false).
        { apply orb_true_iff in En.
          destruct En as [En | En]; apply str_eqb_eq in En; subst k;
            reflexivity. }
        rewrite (bubble_other_key _ k w Esc).
        apply fetchMovieDetails_step.
      * rewrite bubble_escape. unfold onKey.
        destruct (str_eqb k (js "Escape")).
        -- split; [reflexivity | apply Paging.step_closed].
        -- split; [reflexivity | constructor].
    + split; [reflexivity | constructor].
  - destruct (showLoadMore (ui w)).
    + unfold loadMoreButton_onClick.
      destruct (loadMore_outcomes key net (ui w) w) as [E | E]; rewrite E.
      * split; [reflexivity | constructor].
      * apply fetchMovies_step. right; reflexivity.
    + split; [reflexivity | constructor].
  - unfold onKey. destruct (str_eqb k (js "Escape")).
    + split; [reflexivity | apply Paging.step_closed].
    + split; [reflexivity | constructor].
  - destruct (showModal (ui w)).
    + split; [reflexivity | apply Paging.step_closed].
    + split; [reflexivity | constructor].
  - destruct (showModal (ui w)).
    + split; [reflexivity | apply Paging.step_closed].
    + split; [reflexivity | constructor].
Qed.

Lemma step_settled w w' : Paging.step w w' -> Paging.settled w -> Paging.settled w'.
Proof.
  intros S [P [LM [LD [M R]]]].
  destruct S as [ | v | | ms e pg n rq cs Me Pg Rq | sel e rq cs Me Rq];
    unfold Paging.settled; cbn.
  - repeat split; assumption.
  - repeat split; assumption.
  - repeat split; assumption.
  - split; [destruct Pg as [-> | [-> | ->]]; lia|].
    split; [reflexivity|]. split; [exact LD|]. split; [exact Me|].
    apply Forall_app. split; [exact R|].
    destruct Rq as [-> | [url [-> O]]]; [constructor|].
    constructor; [exact O | constructor].
  - split; [exact P|]. split; [exact LM|]. split; [reflexivity|].
    split; [exact Me|].
    apply Forall_app. split; [exact R|].
    destruct Rq as [-> | [url [-> O]]]; [constructor|].
    constructor; [exact O | constructor].
Qed.

Lemma run_settled es : forall w, Paging.settled w -> Paging.settled (run key es w).
Proof.
  induction es as [|[net e] es IH]; intros w S; [exact S|].
  cbn [run]. apply IH.
  apply (step_settled w _ (proj2 (dispatch_step net e w)) S).
Qed.

Lemma start_settled : Paging.settled start.
Proof.
  unfold Paging.settled. cbn. split; [lia|]. split; [reflexivity|].
  split; [reflexivity|]. split; [left; reflexivity | constructor].
Qed.

End Events.

(** ** Where the items on the page come from *)

Section ItemsOrigin.

Variable key : option jsstring.









End ItemsOrigin.

(** X2. No event handler lets an exception out: whatever the network does,
    every handler of the page returns normally. *)
Theorem handlers_never_throw key net e w :
  fst (dispatch key net e w) = Ok tt.
Proof. apply dispatch_step. Qed.

(** X3. The page sends at most one request per event, never takes a request
    back, and sends every request to the provider. *)
Theorem requests_of_run key es w :
  exists rqs,
    requests (run key es w) = requests w ++ rqs
    /\ (List.length rqs <= List.length es)%nat
    /\ Forall (fun url => starts_with Paging.origin url = true) rqs.
Proof.
  revert w. induction es as [|[net e] es IH]; intros w.
  - exists []. rewrite app_nil_r. split; [reflexivity|].
    split; [cbn; lia | constructor].
  - cbn [run]. destruct (dispatch_step key net e w) as [_ S].
    set (w1 := snd (dispatch key net e w)) in *.
    destruct (IH w1) as [rqs [E [L F]]].
    assert (S1 : exists rq, requests w1 = requests w ++ rq
                   /\ (List.length rq <= 1)%nat
                   /\ Forall (fun url => starts_with Paging.origin url = true)
                        rq).
    { destruct S as [ | v | | ms e0 pg n rq cs Me Pg Rq | sel e0 rq cs Me Rq].
      1-3: exists []; rewrite app_nil_r; split; [reflexivity|];
        split; [cbn; lia | constructor].
      all: exists rq; split; [reflexivity|];
        destruct Rq as [-> | [url [-> O]]];
        (split; [cbn; lia|]); repeat constructor; exact O. }
    destruct S1 as [rq [E1 [L1 F1]]].
    exists (rq ++ rqs). rewrite E, E1, app_assoc.
    split; [reflexivity|]. split.
    + rewrite length_app. cbn [List.length]. lia.
    + apply Forall_app. split; assumption.
Qed.

(** X4. On every page that events can lead to, each call having run to its
    end: the page number is at least 1,
    neither loading flag is left set, an error message is never the empty
    string, so the notice is shown exactly when an error is recorded, and
    every request sent so far went to the provider. *)
Theorem reachable_invariant key w :
  Paging.reachable key w ->
  (1 <= page (ui w))%Z
  /\ loadingMovies (ui w) = false
  /\ loadingDetails (ui w) = false
  /\ error (ui w) <> Some []
  /\ (View.showError (ui w) = true <-> error (ui w) <> None)
  /\ Forall (fun url => starts_with Paging.origin url = true) (requests w).
Proof.
  intros [es ->].
  destruct (run_settled key es start start_settled) as [P [LM [LD [M R]]]].
  split; [exact P|]. split; [exact LM|]. split; [exact LD|].
  split; [|split; [|exact R]].
  - destruct M as [-> | [m [-> NE]]]; congruence.
  - unfold View.showError, truthy_opt.
    destruct M as [-> | [m [-> NE]]].
    + split; [discriminate | congruence].
    + apply truthy_true_iff in NE. rewrite NE.
      split; [discriminate | reflexivity].
Qed.

Lemma reachable_invariant_witness :
  let w := run None [(Fixtures.omdb, InputChange (js "xyzzynotamovie"));
                     (Fixtures.omdb, SearchClick)] start in
  (1 <= page (ui w))%Z
  /\ loadingMovies (ui w) = false
  /\ View.showError (ui w) = true.
Proof.
  cbv zeta.
  destruct (reachable_invariant None
    (run None [(Fixtures.omdb, InputChange (js "xyzzynotamovie"));
               (Fixtures.omdb, SearchClick)] start)) as [P [L [_ [_ [S _]]]]].
  - eexists. reflexivity.
  - split; [exact P|]. split; [exact L|]. apply S. discriminate.
Defined.

(** ** What a call leaves alone *)

(** X5. A search, whatever its outcome, never touches the query text, the
    selection or the detail flag; a detail lookup, whatever its outcome,
    never touches the query text, the result collection, the page, the total
    count or the list flag. *)
Theorem calls_keep_the_other_half key net s pageParam append id w :
  (let w' := after (fetchMovies key net s pageParam append) w in
   search (ui w') = search (ui w)
   /\ selectedMovie (ui w') = selectedMovie (ui w)
   /\ loadingDetails (ui w') = loadingDetails (ui w))
  /\ (let w' := after (loadMore key net s) w in
      search (ui w') = search (ui w)
      /\ selectedMovie (ui w') = selectedMovie (ui w)
      /\ loadingDetails (ui w') = loadingDetails (ui w))
  /\ (let w' := after (fetchMovieDetails key net id) w in
      search (ui w') = search (ui w)
      /\ movies (ui w') = movies (ui w)
      /\ page (ui w') = page (ui w)
      /\ totalResults (ui w') = totalResults (ui w)
      /\ loadingMovies (ui w') = loadingMovies (ui w)).
Proof.
  assert (F : forall p a,
    let w' := after (fetchMovies key net s p a) w in
    search (ui w') = search (ui w)
    /\ selectedMovie (ui w') = selectedMovie (ui w)
    /\ loadingDetails (ui w') = loadingDetails (ui w)).
  { intros p a. cbv zeta. unfold after.
    destruct (fetchMovies_outcomes key net s p a w)
      as [[_ E] | [ms [e [pg [n [rq [cs [E _]]]]]]]]; rewrite E;
      repeat split. }
  split; [apply F|]. split.
  - cbv zeta. unfold after.
    destruct (loadMore_outcomes key net s w) as [E | E]; rewrite E.
    + repeat split.
    + apply F.
  - cbv zeta. unfold after.
    destruct (fetchMovieDetails_outcomes key net id w)
      as [[_ E] | [sel [e [rq [cs [E _]]]]]]; rewrite E; repeat split.
Qed.

(** ** The detail lookup *)

(** X6. A successful detail response becomes the selection as a whole, whatever
    was selected before; the error is cleared and exactly one request, for
    the encoded identifier, has been sent. *)
Theorem details_success_replaces_selection key net id w encoded data :
  id <> [] ->
  encodeURIComponent id = Some encoded ->
  detail_api net (detail_url key encoded) = Returned data ->
  OmdbDetail.Response data <> Some (js "False") ->
  let w' := after (fetchMovieDetails key net id) w in
  selectedMovie (ui w') = Some data
  /\ showModal (ui w') = true
  /\ error (ui w') = None
  /\ loadingDetails (ui w') = false
  /\ requests w' = requests w ++ [detail_url key encoded].
Proof.
  intros NE E T F. cbv zeta. unfold after.
  apply truthy_true_iff in NE.
  assert (F' : detail_failed data = false).
  { unfold detail_failed. destruct (OmdbDetail.Response data) as [r|];
      [|reflexivity].
    apply str_eqb_neq. congruence. }
  rewrite (fetchMovieDetails_success key net id w encoded data NE E T F').
  repeat split.
Qed.

Lemma details_success_replaces_selection_witness :
  let w' := after (fetchMovieDetails None Fixtures.omdb (js "tt0111161"))
              Fixtures.browsing in
  selectedMovie (ui w') = Some Fixtures.shawshank
  /\ requests w'
     = requests Fixtures.browsing
       ++ [js "https://www.omdbapi.com/?i=tt0111161&apikey=3bc93085"].
Proof.
  destruct (details_success_replaces_selection None Fixtures.omdb
              (js "tt0111161") Fixtures.browsing (js "tt0111161")
              Fixtures.shawshank) as [S [_ [_ [_ R]]]];
    try reflexivity; try discriminate.
  split; [exact S | exact R].
Defined.

(** X7. A detail request that throws (no network, a body that is not JSON)
    leaves the selection as it was, a record that was shown stays shown, and
    sets the fixed message; the thrown value is logged. *)
Theorem details_thrown_keeps_selection key net id w encoded e :
  id <> [] ->
  encodeURIComponent id = Some encoded ->
  detail_api net (detail_url key encoded) = Threw e ->
  let w' := after (fetchMovieDetails key net id) w in
  selectedMovie (ui w') = selectedMovie (ui w)
  /\ error (ui w') = Some (js "Failed to fetch movie details.")
  /\ loadingDetails (ui w') = false
  /\ console w' = console w ++ [e].
Proof.
  intros NE E T. cbv zeta. unfold after.
  apply truthy_true_iff in NE.
  rewrite (fetchMovieDetails_threw key net id w encoded e NE E T).
  repeat split.
Qed.

Lemma details_thrown_keeps_selection_witness :
  let w' := after (fetchMovieDetails None Fixtures.offline (js "tt1"))
              Fixtures.viewing in
  selectedMovie (ui w') = Some Fixtures.shawshank
  /\ error (ui w') = Some (js "Failed to fetch movie details.").
Proof.
  destruct (details_thrown_keeps_selection None Fixtures.offline (js "tt1")
              Fixtures.viewing (js "tt1") TypeError) as [S [E _]];
    try reflexivity; try discriminate.
  split; [exact S | exact E].
Defined.

(** ** When a search sends a request *)

Lemma app_one_neq {A} (l : list A) (x : A) : l ++ [x] <> l.
Proof.
  intros E. apply (f_equal (@List.length A)) in E.
  rewrite length_app in E. cbn in E. lia.
Qed.

(** X9. [fetchMovies] sends a request exactly when the query text has a
    character that is not white space and holds no lone surrogate; the
    request is then the one URL built from the encoded text, the key and the
    page. *)
Theorem search_sends_request_iff key net s pageParam append w :
  let w' := after (fetchMovies key net s pageParam append) w in
  (requests w' <> requests w
   <-> forallb is_white_space (search s) = false
       /\ encodeURIComponent (search s) <> None)
  /\ (forall encoded,
        forallb is_white_space (search s) = false ->
        encodeURIComponent (search s) = Some encoded ->
        requests w' = requests w ++ [search_url key encoded pageParam]).
Proof.
  cbv zeta.
  assert (B : truthy (trim (search s)) = true
              <-> forallb is_white_space (search s) = false).
  { rewrite <- not_true_iff_false, <- blank_iff, negb_true_iff,
      not_false_iff_true. reflexivity. }
  assert (K : forall encoded,
            forallb is_white_space (search s) = false ->
            encodeURIComponent (search s) = Some encoded ->
            requests (after (fetchMovies key net s pageParam append) w)
            = requests w ++ [search_url key encoded pageParam]).
  { intros encoded W E. apply B in W.
    destruct (fetchMovies_requests key net s pageParam append w)
      as [R | [enc [_ [E' R]]]].
    - exfalso. unfold after in R.
      destruct (search_api net (search_url key encoded pageParam))
        as [e|data] eqn:T.
      + rewrite (fetchMovies_threw key net s pageParam append w encoded e
                   W E T) in R.
        cbn in R. exact (app_one_neq _ _ R).
      + destruct (str_eqb (OmdbSearchResponse.Response data) (js "False"))
          eqn:F.
        * rewrite (fetchMovies_failure key net s pageParam append w encoded
                     data W E T F) in R.
          cbn in R. exact (app_one_neq _ _ R).
        * rewrite (fetchMovies_success key net s pageParam append w encoded
                     data W E T F) in R.
          cbn in R. exact (app_one_neq _ _ R).
    - rewrite E in E'. injection E' as <-. exact R. }
  split; [|exact K]. split.
  - intros R.
    destruct (fetchMovies_requests key net s pageParam append w)
      as [R' | [enc [H [E _]]]]; [contradiction|].
    split; [apply B; exact H | congruence].
  - intros [W E].
    destruct (encodeURIComponent (search s)) as [encoded|] eqn:Enc;
      [|congruence].
    rewrite (K encoded W eq_refl). apply app_one_neq.
Qed.

Lemma search_sends_request_iff_witness :
  requests (after (fetchMovies None Fixtures.omdb (ui Fixtures.browsing)
                     2 true) Fixtures.browsing)
  = requests Fixtures.browsing
    ++ [js "https://www.omdbapi.com/?s=batman&apikey=3bc93085&page=2"].
Proof.
  destruct (search_sends_request_iff None Fixtures.omdb
              (ui Fixtures.browsing) 2 true Fixtures.browsing) as [_ K].
  apply (K (js "batman")); reflexivity.
Defined.

(** X10. A query text with a lone surrogate cannot be encoded: the search sends
    no request, keeps the collection, the count and the page, and reports
    the same fixed message as a failed transfer. *)
Theorem search_unencodable_query key net s pageParam append w :
  truthy (trim (search s)) = true ->
  encodeURIComponent (search s) = None ->
  let w' := after (fetchMovies key net s pageParam append) w in
  requests w' = requests w
  /\ movies (ui w') = movies (ui w)
  /\ totalResults (ui w') = totalResults (ui w)
  /\ page (ui w') = page (ui w)
  /\ error (ui w')
     = Some (js "Failed to fetch movies. Check your network or API key.")
  /\ loadingMovies (ui w') = false
  /\ console w' = console w ++ [URIError].
Proof.
  intros H E. cbv zeta. unfold after.
  rewrite (fetchMovies_uri_error key net s pageParam append w H E).
  repeat split.
Qed.

Lemma search_unencodable_query_witness :
  let w := after (setSearch [0x62; 0xD83C]%N) Fixtures.browsing in
  let w' := after (fetchMovies None Fixtures.omdb (ui w) 1 false) w in
  requests w' = requests w /\ movies (ui w') = Fixtures.page1.
Proof.
  cbv zeta.
  destruct (search_unencodable_query None Fixtures.omdb
              (ui (after (setSearch [0x62; 0xD83C]%N) Fixtures.browsing))
              1 false
              (after (setSearch [0x62; 0xD83C]%N) Fixtures.browsing)
              eq_refl eq_refl) as [R [M _]].
  split; [exact R | exact M].
Defined.

(** ** The keyboard *)

(** X14. On a card, Enter and the space bar do exactly what a click does; in
    the search box, Enter does exactly what the Search button does; Escape
    closes the modal wherever the key is pressed, on a card, in the search
    box or elsewhere, since the key reaches the listener of the window from
    every element; any other key does nothing. *)
Theorem keyboard_activation key net w i k :
  dispatch key net (CardKeyDown i (js "Enter")) w
    = dispatch key net (CardClick i) w
  /\ dispatch key net (CardKeyDown i (js " ")) w
     = dispatch key net (CardClick i) w
  /\ dispatch key net (InputKeyDown (js "Enter")) w
     = dispatch key net SearchClick w
  /\ ((i < List.length (movies (ui w)))%nat ->
      dispatch key net (CardKeyDown i (js "Escape")) w = closeDetails w)
  /\ dispatch key net (InputKeyDown (js "Escape")) w = closeDetails w
  /\ dispatch key net (WindowKeyDown (js "Escape")) w = closeDetails w
  /\ (k <> js "Enter" -> k <> js " " -> k <> js "Escape" ->
      dispatch key net (CardKeyDown i k) w = (Ok tt, w))
  /\ (k <> js "Enter" -> k <> js "Escape" ->
      dispatch key net (InputKeyDown k) w = (Ok tt, w))
  /\ (k <> js "Escape" -> dispatch key net (WindowKeyDown k) w = (Ok tt, w)).
Proof.
  unfold dispatch.
  split.
  { destruct (nth_error (movies (ui w)) i); [|reflexivity].
    rewrite bubble_other_key by reflexivity. reflexivity. }
  split.
  { destruct (nth_error (movies (ui w)) i); [|reflexivity].
    rewrite bubble_other_key by reflexivity. reflexivity. }
  split; [rewrite bubble_other_key by reflexivity; reflexivity|].
  split.
  { intros L. destruct (nth_error (movies (ui w)) i) eqn:Nth.
    - reflexivity.
    - apply nth_error_None in Nth. lia. }
  split; [reflexivity|]. split; [reflexivity|].
  split; [|split].
  - intros E S X. apply str_eqb_neq in E, S, X.
    destruct (nth_error (movies (ui w)) i); [|reflexivity].
    rewrite (bubble_other_key _ k w X). unfold card_onKeyDown.
    rewrite E, S. reflexivity.
  - intros E X. apply str_eqb_neq in E, X.
    rewrite (bubble_other_key _ k w X). unfold input_onKeyDown.
    rewrite E. reflexivity.
  - intros X. apply str_eqb_neq in X. unfold onKey. rewrite X. reflexivity.
Qed.

Lemma keyboard_activation_witness :
  showModal (ui Fixtures.viewing) = true
  /\ showModal
       (ui (snd (dispatch None Fixtures.omdb (CardKeyDown 0 (js "Escape"))
                   Fixtures.viewing))) = false
  /\ dispatch None Fixtures.omdb (CardKeyDown 0 (js "a")) Fixtures.browsing
     = (Ok tt, Fixtures.browsing)
  /\ dispatch None Fixtures.omdb (InputKeyDown (js "a")) Fixtures.browsing
     = (Ok tt, Fixtures.browsing)
  /\ dispatch None Fixtures.omdb (WindowKeyDown (js "Enter")) Fixtures.viewing
     = (Ok tt, Fixtures.viewing).
Proof.
  destruct (keyboard_activation None Fixtures.omdb Fixtures.browsing 0
              (js "a")) as [_ [_ [_ [_ [_ [_ [A [B _]]]]]]]].
  destruct (keyboard_activation None Fixtures.omdb Fixtures.viewing 0
              (js "Enter")) as [_ [_ [_ [E [_ [_ [_ [_ C]]]]]]]].
  split; [reflexivity|].
  split; [rewrite E by (cbn; lia); reflexivity|].
  split; [apply A; discriminate|]. split; [apply B; discriminate|].
  apply C; discriminate.
Defined.

(** ** Paging through a result *)

Section PagingFacts.

Variable key : option jsstring.
Variable net : Network.
Variable q encoded : jsstring.
Variable pages : list (list OmdbMovie.t).

Hypothesis q_not_blank : truthy (trim q) = true.
Hypothesis q_encoded : encodeURIComponent q = Some encoded.
Hypothesis pages_full : Forall (fun p => p <> []) pages.
Hypothesis provider :
  Paging.serves key net encoded pages (Z.of_nat (List.length (List.concat pages))).

#[local] Abbreviation synced := (Paging.synced q pages).

Lemma firstn_succ {A} (l : list A) (j : nat) (x : A) :
  nth_error l j = Some x -> firstn (S j) l = firstn j l ++ [x].
Proof.
  revert j; induction l as [|a l IH]; intros [|j] H; try discriminate.
  - injection H as ->. reflexivity.
  - cbn [firstn app]. f_equal. apply IH. exact H.
Qed.

Lemma loaded_below_total (j : nat) :
  (j < List.length pages)%nat ->
  (List.length (List.concat (firstn j pages)) < List.length (List.concat pages))%nat.
Proof.
  intros L.
  rewrite <- (firstn_skipn j pages) at 2.
  rewrite concat_app, length_app.
  assert (F : Forall (fun p => p <> []) (skipn j pages)).
  { rewrite <- (firstn_skipn j pages) in pages_full.
    apply Forall_app in pages_full. apply pages_full. }
  destruct (skipn j pages) as [|p rest] eqn:S.
  - apply (f_equal (@List.length _)) in S. rewrite length_skipn in S.
    cbn in S. lia.
  - inversion F as [|? ? Hp _]. destruct p; [congruence|].
    cbn. lia.
Qed.

Lemma loaded_positive (j : nat) :
  (1 <= j <= List.length pages)%nat ->
  (0 < List.length (List.concat (firstn j pages)))%nat.
Proof.
  intros [J1 J2]. destruct pages as [|p rest]; [cbn in J2; lia|].
  destruct j; [lia|]. inversion pages_full as [|? ? Hp _].
  destruct p; [congruence|]. cbn. lia.
Qed.

Lemma synced_shows_control (j : nat) (w : World) :
  synced j w ->
  showLoadMore (ui w) = negb (j =? List.length pages)%nat.
Proof.
  intros [J [_ [M [_ [T _]]]]]. unfold showLoadMore. rewrite M, T.
  pose proof (loaded_positive j J) as P.
  cbn [lt].
  replace (0 <? Z.of_nat (List.length (List.concat (firstn j pages))))%Z
    with true by (symmetry; apply Z.ltb_lt; lia).
  cbn [andb].
  destruct (Nat.eqb_spec j (List.length pages)) as [-> | NE].
  - rewrite firstn_all. cbn [negb]. apply Z.ltb_irrefl.
  - cbn [negb]. apply Z.ltb_lt.
    assert (L : (j < List.length pages)%nat) by lia.
    pose proof (loaded_below_total j L). lia.
Qed.

Lemma first_search (w : World) :
  search (ui w) = q ->
  pages <> [] ->
  let w' := snd (dispatch key net SearchClick w) in
  synced 1 w'
  /\ requests w' = requests w ++ [search_url key encoded 1].
Proof.
  intros Q NE. cbv zeta. destruct pages as [|p rest] eqn:P; [congruence|].
  destruct (provider 0%nat p) as [data [T [F [Sd N]]]];
    [try rewrite P; reflexivity|].
  unfold dispatch, searchButton_onClick.
  assert (H : truthy (trim (search (ui w))) = true) by (rewrite Q; exact q_not_blank).
  assert (E : encodeURIComponent (search (ui w)) = Some encoded)
    by (rewrite Q; exact q_encoded).
  rewrite (fetchMovies_success key net (ui w) 1 false w encoded data H E T F).
  cbn [snd]. split; [|reflexivity].
  unfold Paging.synced. cbn [ui searched search movies page totalResults error].
  split; [cbn; lia|]. split; [exact Q|].
  split; [rewrite Sd; cbn; rewrite app_nil_r; reflexivity|].
  split; [reflexivity|]. split; [rewrite N; try rewrite P; reflexivity | reflexivity].
Qed.

Lemma next_page (j : nat) (w : World) :
  synced j w ->
  (j < List.length pages)%nat ->
  let w' := snd (dispatch key net LoadMoreClick w) in
  synced (S j) w'
  /\ requests w' = requests w ++ [search_url key encoded (Z.of_nat (S j))].
Proof.
  intros Sy L. cbv zeta.
  pose proof (synced_shows_control j w Sy) as V.
  destruct Sy as [J [Q [M [Pg [Tot Er]]]]].
  replace (j =? List.length pages)%nat with false in V
    by (symmetry; apply Nat.eqb_neq; lia).
  cbn [negb] in V.
  destruct (showLoadMore_passes_guard (ui w) V) as [_ G].
  destruct (nth_error pages j) as [items|] eqn:Nth.
  2:{ apply nth_error_None in Nth. lia. }
  destruct (provider j items Nth) as [data [T [F [Sd N]]]].
  unfold dispatch. rewrite V. unfold loadMoreButton_onClick.
  rewrite (loadMore_continues key net (ui w) w G).
  assert (H : truthy (trim (search (ui w))) = true) by (rewrite Q; exact q_not_blank).
  assert (E : encodeURIComponent (search (ui w)) = Some encoded)
    by (rewrite Q; exact q_encoded).
  assert (P1 : (page (ui w) + 1)%Z = Z.of_nat (S j)) by lia.
  rewrite P1.
  rewrite (fetchMovies_success key net (ui w) (Z.of_nat (S j)) true w
             encoded data H E T F).
  cbn [snd]. split; [|reflexivity].
  unfold Paging.synced. cbn [ui searched search movies page totalResults error].
  split; [lia|]. split; [exact Q|].
  split; [rewrite Sd, M, (firstn_succ pages j items Nth), concat_app; cbn [List.concat];
          rewrite app_nil_r; reflexivity|].
  split; [reflexivity|]. split; [exact N | reflexivity].
Qed.

Lemma last_page (w : World) :
  synced (List.length pages) w ->
  dispatch key net LoadMoreClick w = (Ok tt, w).
Proof.
  intros Sy. pose proof (synced_shows_control _ w Sy) as V.
  rewrite Nat.eqb_refl in V. cbn [negb] in V.
  unfold dispatch. rewrite V. reflexivity.
Qed.

Lemma more_pages (k : nat) :
  forall j w,
    synced j w ->
    let w' := run key (repeat (net, LoadMoreClick) k) w in
    let j' := Nat.min (j + k) (List.length pages) in
    synced j' w'
    /\ requests w'
       = requests w
         ++ map (fun i => search_url key encoded (Z.of_nat i))
              (seq (S j) (j' - j)).
Proof.
  induction k as [|k IH]; intros j w Sy; cbv zeta.
  - pose proof Sy as [J _]. cbn [repeat run].
    replace (Nat.min (j + 0) (List.length pages)) with j by lia.
    replace (j - j)%nat with 0%nat by lia. cbn. rewrite app_nil_r.
    split; [exact Sy | reflexivity].
  - pose proof Sy as [J _]. cbn [repeat run].
    destruct (Nat.eq_dec j (List.length pages)) as [E | NE].
    + subst j. rewrite (last_page w Sy). cbn [snd].
      destruct (IH _ w Sy) as [Sy' R]. cbv zeta in *.
      replace (Nat.min (List.length pages + S k) (List.length pages))
        with (Nat.min (List.length pages + k) (List.length pages)) by lia.
      split; [exact Sy' | exact R].
    + assert (L : (j < List.length pages)%nat) by lia.
      destruct (next_page j w Sy L) as [Sy1 R1]. cbv zeta in *.
      destruct (IH _ _ Sy1) as [Sy' R]. cbv zeta in *.
      replace (Nat.min (j + S k) (List.length pages))
        with (Nat.min (S j + k) (List.length pages)) by lia.
      split; [exact Sy'|]. rewrite R, R1, <- app_assoc. f_equal.
      replace (Nat.min (S j + k) (List.length pages) - j)%nat
        with (S (Nat.min (S j + k) (List.length pages) - S j)) by lia.
      reflexivity.
Qed.

Lemma search_then_more_pages (k : nat) (w : World) :
  search (ui w) = q ->
  pages <> [] ->
  let w' := run key ((net, SearchClick) :: repeat (net, LoadMoreClick) k) w in
  let j := Nat.min (S k) (List.length pages) in
  synced j w'
  /\ requests w' = requests w ++ Paging.page_urls key encoded j.
Proof.
  intros Q NE. cbv zeta. cbn [run].
  destruct (first_search w Q NE) as [Sy1 R1]. cbv zeta in *.
  destruct (more_pages k 1 _ Sy1) as [Sy R]. cbv zeta in *.
  cbn [Nat.add] in *. split; [exact Sy|].
  rewrite R, R1, <- app_assoc. f_equal. unfold Paging.page_urls.
  assert (J : (1 <= Nat.min (S k) (List.length pages))%nat).
  { destruct pages; [congruence | cbn; lia]. }
  replace (Nat.min (S k) (List.length pages))
    with (S (Nat.min (S k) (List.length pages) - 1)) at 2 by lia.
  reflexivity.
Qed.

End PagingFacts.

(** X1. For a user who waits for each answer before the next use of the
    control (each event of [run] is a request together with its response):
    a search followed by [k] uses of the load-more control shows the first
    [min (k + 1) n] of the [n] pages the provider holds, in order, nothing
    dropped and nothing twice; each of those pages was requested once, in
    order, and no other request was sent; the control is shown exactly while
    pages are left.  (Two uses before the first answer are the matter of
    X24.) *)
Theorem paging_loads_every_page_once key net w encoded pages k :
  truthy (trim (search (ui w))) = true ->
  encodeURIComponent (search (ui w)) = Some encoded ->
  pages <> [] ->
  Forall (fun p => p <> []) pages ->
  Paging.serves key net encoded pages (Z.of_nat (List.length (List.concat pages))) ->
  let w' := run key ((net, SearchClick) :: repeat (net, LoadMoreClick) k) w in
  let j := Nat.min (S k) (List.length pages) in
  movies (ui w') = List.concat (firstn j pages)
  /\ page (ui w') = Z.of_nat j
  /\ requests w' = requests w ++ Paging.page_urls key encoded j
  /\ (showLoadMore (ui w') = true <-> (j < List.length pages)%nat)
  /\ error (ui w') = None.
Proof.
  intros H E NE F P. cbv zeta.
  destruct (search_then_more_pages key net (search (ui w)) encoded pages
              H E F P k w eq_refl NE) as [Sy R]. cbv zeta in *.
  pose proof (synced_shows_control key net _ encoded pages F P _ _ Sy) as V.
  destruct Sy as [J [_ [M [Pg [_ Er]]]]].
  split; [exact M|]. split; [exact Pg|]. split; [exact R|].
  split; [|exact Er].
  rewrite V.
  destruct (Nat.eqb_spec (Nat.min (S k) (List.length pages))
              (List.length pages)) as [Eq | Neq]; cbn [negb].
  - split; [discriminate | lia].
  - split; [lia | reflexivity].
Qed.

Lemma paging_loads_every_page_once_witness :
  let w := run None [(Fixtures.omdb, InputChange (js "batman"))] start in
  let w' := run None ((Fixtures.omdb, SearchClick)
                      :: repeat (Fixtures.omdb, LoadMoreClick) 5) w in
  movies (ui w') = Fixtures.page1 ++ Fixtures.page2 ++ Fixtures.page3
  /\ page (ui w') = 3%Z
  /\ List.length (requests w') = 3%nat.
Proof.
  cbv zeta.
  destruct (paging_loads_every_page_once None Fixtures.omdb
              (run None [(Fixtures.omdb, InputChange (js "batman"))] start)
              (js "batman")
              [Fixtures.page1; Fixtures.page2; Fixtures.page3] 5)
    as [M [P [R _]]].
  - reflexivity.
  - reflexivity.
  - discriminate.
  - repeat constructor; discriminate.
  - intros i items Nth.
    destruct i as [|[|[|i]]]; cbn in Nth;
      try (destruct i; discriminate);
      injection Nth as <-; eexists;
      (split; [reflexivity|]); (split; [reflexivity|]);
      split; reflexivity.
  - split; [exact M|]. split; [exact P|]. rewrite R. reflexivity.
Defined.

(** ** Calls whose response arrives later *)

Section TwoHalves.

Variable key : option jsstring.

#[local] Arguments js : simpl never.
#[local] Arguments search_url : simpl never.
#[local] Arguments detail_url : simpl never.
#[local] Arguments trim : simpl never.
#[local] Arguments encodeURIComponent : simpl never.
#[local] Arguments parseInt : simpl never.
#[local] Arguments or_str : simpl never.
#[local] Arguments or_array : simpl never.
#[local] Arguments str_eqb : simpl never.

Ltac run_halves :=
  unfold Async.fetchMovies_begin, Async.fetchMovies_resume,
    Async.fetchMovieDetails_begin, Async.fetchMovieDetails_resume,
    Async.loadMore_begin, Async.then_resume, Async.issue, Async.settle,
    try_catch_finally, try_finally, try_catch, bind, ret, throw,
    encode, fetch_json, console_error, setSearch, setMovies,
    setSelectedMovie, setLoadingMovies, setLoadingDetails, setError,
    setPage, setTotalResults, modify.

(** A call is its first half followed by its second half on what the network
    answers, when nothing happens in between. *)
Lemma fetchMovies_two_halves net s pageParam append w :
  fetchMovies key net s pageParam append w
  = bind (Async.fetchMovies_begin key s pageParam)
      (Async.then_resume (search_api net)
         (Async.fetchMovies_resume pageParam append)) w.
Proof.
  unfold fetchMovies. run_halves.
  destruct (truthy (trim (search s))); cbn; [|reflexivity].
  destruct (encodeURIComponent (search s)) as [encoded|]; cbn; [|reflexivity].
  destruct (search_api net (search_url key encoded pageParam)) as [e|data];
    cbn; [reflexivity|].
  destruct (str_eqb (OmdbSearchResponse.Response data) (js "False"));
    reflexivity.
Qed.

Lemma fetchMovieDetails_two_halves net id w :
  fetchMovieDetails key net id w
  = bind (Async.fetchMovieDetails_begin key id)
      (Async.then_resume (detail_api net) Async.fetchMovieDetails_resume) w.
Proof.
  unfold fetchMovieDetails. run_halves.
  destruct (truthy id); cbn; [|reflexivity].
  destruct (encodeURIComponent id) as [encoded|]; cbn; [|reflexivity].
  destruct (detail_api net (detail_url key encoded)) as [e|data];
    cbn; [reflexivity|].
  destruct (match OmdbDetail.Response data with
            | Some r => str_eqb r (js "False")
            | None => false
            end); reflexivity.
Qed.

Lemma loadMore_two_halves net s w :
  loadMore key net s w
  = bind (Async.loadMore_begin key s)
      (Async.then_resume (search_api net)
         (Async.fetchMovies_resume (page s + 1) true)) w.
Proof.
  unfold loadMore, Async.loadMore_begin.
  destruct (ge (Z.of_nat (List.length (movies s))) (totalResults s));
    [reflexivity|].
  apply fetchMovies_two_halves.
Qed.

(** The first half of a search with a query that passes the guard and can
    be encoded: the flag is up, the error is cleared, the request is out. *)
Lemma fetchMovies_begin_awaits s pageParam w encoded :
  truthy (trim (search s)) = true ->
  encodeURIComponent (search s) = Some encoded ->
  Async.fetchMovies_begin key s pageParam w
  = (Ok (Async.Awaiting (search_url key encoded pageParam)),
     {| ui := {| search := search (ui w); movies := movies (ui w);
                 selectedMovie := selectedMovie (ui w);
                 loadingMovies := true;
                 loadingDetails := loadingDetails (ui w);
                 error := None; page := page (ui w);
                 totalResults := totalResults (ui w) |};
        requests := requests w ++ [search_url key encoded pageParam];
        console := console w |}).
Proof.
  intros H E. run_halves. rewrite H, E. reflexivity.
Qed.

Lemma fetchMovieDetails_begin_awaits id w encoded :
  truthy id = true ->
  encodeURIComponent id = Some encoded ->
  Async.fetchMovieDetails_begin key id w
  = (Ok (Async.Awaiting (detail_url key encoded)),
     {| ui := {| search := search (ui w); movies := movies (ui w);
                 selectedMovie := selectedMovie (ui w);
                 loadingMovies := loadingMovies (ui w);
                 loadingDetails := true;
                 error := None; page := page (ui w);
                 totalResults := totalResults (ui w) |};
        requests := requests w ++ [detail_url key encoded];
        console := console w |}).
Proof.
  intros H E. run_halves. rewrite H, E. reflexivity.
Qed.

(** The second half of a search, on whatever the state has become. *)
Lemma fetchMovies_resume_success pageParam append data w :
  str_eqb (OmdbSearchResponse.Response data) (js "False") = false ->
  Async.fetchMovies_resume pageParam append (Returned data) w
  = (Ok tt,
     {| ui := {| search := search (ui w);
                 movies := (if append
                            then movies (ui w)
                                 ++ or_array (OmdbSearchResponse.Search data)
                            else or_array (OmdbSearchResponse.Search data));
                 selectedMovie := selectedMovie (ui w);
                 loadingMovies := false;
                 loadingDetails := loadingDetails (ui w);
                 error := error (ui w); page := pageParam;
                 totalResults :=
                   parseInt (or_str (OmdbSearchResponse.totalResults data)
                                    (js "0")) 10 |};
        requests := requests w;
        console := console w |}).
Proof.
  intros F. run_halves. cbn. rewrite F. reflexivity.
Qed.

Lemma fetchMovies_resume_clears_flag pageParam append o w :
  fst (Async.fetchMovies_resume pageParam append o w) = Ok tt
  /\ loadingMovies (ui (after (Async.fetchMovies_resume pageParam append o) w))
     = false.
Proof.
  unfold after. run_halves. destruct o as [e|data]; cbn.
  - split; reflexivity.
  - destruct (str_eqb (OmdbSearchResponse.Response data) (js "False"));
      split; reflexivity.
Qed.

Lemma fetchMovieDetails_resume_success data w :
  detail_failed data = false ->
  Async.fetchMovieDetails_resume (Returned data) w
  = (Ok tt,
     {| ui := {| search := search (ui w); movies := movies (ui w);
                 selectedMovie := Some data;
                 loadingMovies := loadingMovies (ui w);
                 loadingDetails := false;
                 error := error (ui w); page := page (ui w);
                 totalResults := totalResults (ui w) |};
        requests := requests w;
        console := console w |}).
Proof.
  intros F. unfold detail_failed in F. run_halves. cbn. rewrite F.
  reflexivity.
Qed.

Lemma fetchMovieDetails_resume_clears_flag o w :
  fst (Async.fetchMovieDetails_resume o w) = Ok tt
  /\ loadingDetails (ui (after (Async.fetchMovieDetails_resume o) w)) = false.
Proof.
  unfold after. run_halves. destruct o as [e|data]; cbn.
  - split; reflexivity.
  - destruct (match OmdbDetail.Response data with
              | Some r => str_eqb r (js "False")
              | None => false
              end); split; reflexivity.
Qed.

End TwoHalves.



(** C7. A call of [fetchMovies] with a query that passes the guard and can
    be encoded sends its request, raises the list flag while the request is
    out and ends, returning normally, with the flag cleared, whatever the
    flag was before and whatever the network does: a successful response,
    one without items, a failure reported by the provider, or a thrown
    exception; so does a call of [fetchMovieDetails] with an identifier that
    is not empty and can be encoded, for the detail flag.  The same holds
    when the response comes later, on whatever the state has become. *)
Theorem loading_flags_cleared
    key net s pageParam append id w encoded encoded_id :
  truthy (trim (search s)) = true ->
  encodeURIComponent (search s) = Some encoded ->
  id <> [] ->
  encodeURIComponent id = Some encoded_id ->
  (requests (after (fetchMovies key net s pageParam append) w)
     = requests w ++ [search_url key encoded pageParam]
   /\ fst (fetchMovies key net s pageParam append w) = Ok tt
   /\ loadingMovies (ui (after (fetchMovies key net s pageParam append) w))
      = false)
  /\ (requests (after (fetchMovieDetails key net id) w)
        = requests w ++ [detail_url key encoded_id]
      /\ fst (fetchMovieDetails key net id w) = Ok tt
      /\ loadingDetails (ui (after (fetchMovieDetails key net id) w)) = false)
  /\ (loadingMovies (ui (after (Async.fetchMovies_begin key s pageParam) w))
        = true
      /\ forall o w2,
           fst (Async.fetchMovies_resume pageParam append o w2) = Ok tt
           /\ loadingMovies
                (ui (after (Async.fetchMovies_resume pageParam append o) w2))
              = false)
  /\ (loadingDetails (ui (after (Async.fetchMovieDetails_begin key id) w))
        = true
      /\ forall o w2,
           fst (Async.fetchMovieDetails_resume o w2) = Ok tt
           /\ loadingDetails
                (ui (after (Async.fetchMovieDetails_resume o) w2)) = false).
Proof.
  intros H E NE Ei. apply truthy_true_iff in NE.
  split; [|split; [|split]].
  - split; [|apply fetchMovies_clears_flag; exact H].
    unfold after.
    destruct (search_api net (search_url key encoded pageParam))
      as [e|data] eqn:T.
    + rewrite (fetchMovies_threw key net s pageParam append w encoded e
                 H E T). reflexivity.
    + destruct (str_eqb (OmdbSearchResponse.Response data) (js "False"))
        eqn:F.
      * rewrite (fetchMovies_failure key net s pageParam append w encoded
                   data H E T F). reflexivity.
      * rewrite (fetchMovies_success key net s pageParam append w encoded
                   data H E T F). reflexivity.
  - split; [|apply fetchMovieDetails_clears_flag; exact NE].
    unfold after.
    destruct (detail_api net (detail_url key encoded_id)) as [e|data] eqn:T.
    + rewrite (fetchMovieDetails_threw key net id w encoded_id e NE Ei T).
      reflexivity.
    + destruct (detail_failed data) eqn:F.
      * rewrite (fetchMovieDetails_failure key net id w encoded_id data
                   NE Ei T F). reflexivity.
      * rewrite (fetchMovieDetails_success key net id w encoded_id data
                   NE Ei T F). reflexivity.
  - split; [|intros o w2; apply fetchMovies_resume_clears_flag].
    unfold after.
    rewrite (fetchMovies_begin_awaits key s pageParam w encoded H E).
    reflexivity.
  - split; [|intros o w2; apply fetchMovieDetails_resume_clears_flag].
    unfold after.
    rewrite (fetchMovieDetails_begin_awaits key id w encoded_id NE Ei).
    reflexivity.
Qed.

Lemma loading_flags_cleared_witness :
  let w0 := after (Async.fetchMovies_begin None (ui Fixtures.browsing) 2)
              Fixtures.browsing in
  let w := after (Async.fetchMovieDetails_begin None (js "tt1")) w0 in
  (loadingMovies (ui w) = true /\ loadingDetails (ui w) = true)
  /\ loadingMovies
       (ui (after (fetchMovies None Fixtures.offline (ui w) 2 true) w)) = false
  /\ loadingDetails
       (ui (after (fetchMovieDetails None Fixtures.offline (js "tt1")) w))
     = false
  /\ List.length
       (requests (after (fetchMovies None Fixtures.offline (ui w) 2 true) w))
     = S (List.length (requests w)).
Proof.
  cbv zeta.
  set (w := after (Async.fetchMovieDetails_begin None (js "tt1"))
              (after (Async.fetchMovies_begin None (ui Fixtures.browsing) 2)
                 Fixtures.browsing)).
  destruct (loading_flags_cleared None Fixtures.offline (ui w) 2 true
              (js "tt1") w (js "batman") (js "tt1")
              eq_refl eq_refl ltac:(discriminate) eq_refl)
    as [[R [_ A]] [[_ [_ B]] _]].
  split; [split; reflexivity|].
  split; [exact A|]. split; [exact B|].
  rewrite R, length_app. cbn. lia.
Defined.

(** X19. A detail response that arrives after the modal was closed opens it
    again: the second half of [fetchMovieDetails] does not look at what
    happened since the request. *)
Theorem late_details_reopen_modal key id w encoded data :
  id <> [] ->
  encodeURIComponent id = Some encoded ->
  OmdbDetail.Response data <> Some (js "False") ->
  let w1 := after (Async.fetchMovieDetails_begin key id) w in
  let w2 := after closeDetails w1 in
  let w3 := after (Async.fetchMovieDetails_resume (Returned data)) w2 in
  fst (Async.fetchMovieDetails_begin key id w)
    = Ok (Async.Awaiting (detail_url key encoded))
  /\ showModal (ui w2) = false
  /\ selectedMovie (ui w3) = Some data
  /\ showModal (ui w3) = true.
Proof.
  intros NE E F. cbv zeta. unfold after.
  apply truthy_true_iff in NE.
  assert (F' : detail_failed data = false).
  { unfold detail_failed. destruct (OmdbDetail.Response data) as [r|];
      [|reflexivity].
    apply str_eqb_neq. congruence. }
  rewrite (fetchMovieDetails_begin_awaits key id w encoded NE E).
  rewrite (fetchMovieDetails_resume_success data _ F').
  repeat split.
Qed.

Lemma late_details_reopen_modal_witness :
  let w1 := after (Async.fetchMovieDetails_begin None (js "tt0111161"))
              Fixtures.browsing in
  let w2 := after closeDetails w1 in
  let w3 := after (Async.fetchMovieDetails_resume
                     (Returned Fixtures.shawshank)) w2 in
  showModal (ui w2) = false /\ showModal (ui w3) = true.
Proof.
  destruct (late_details_reopen_modal None (js "tt0111161")
              Fixtures.browsing (js "tt0111161") Fixtures.shawshank)
    as [_ [A [_ B]]]; try reflexivity; try discriminate.
  split; [exact A | exact B].
Defined.

(** X20. Two searches in flight: the response that arrives last decides what is
    shown.  When the answer to the first query arrives after the answer to
    the second, the page shows the items and the count of the first query
    under the text of the second. *)
Theorem last_response_wins key w qB encA encB dA dB :
  truthy (trim (search (ui w))) = true ->
  encodeURIComponent (search (ui w)) = Some encA ->
  truthy (trim qB) = true ->
  encodeURIComponent qB = Some encB ->
  OmdbSearchResponse.Response dA <> js "False" ->
  OmdbSearchResponse.Response dB <> js "False" ->
  let w1 := after (Async.fetchMovies_begin key (ui w) 1) w in
  let w2 := after (setSearch qB) w1 in
  let w3 := after (Async.fetchMovies_begin key (ui w2) 1) w2 in
  let w4 := after (Async.fetchMovies_resume 1 false (Returned dB)) w3 in
  let w5 := after (Async.fetchMovies_resume 1 false (Returned dA)) w4 in
  requests w3 = requests w ++ [search_url key encA 1; search_url key encB 1]
  /\ movies (ui w4) = or_array (OmdbSearchResponse.Search dB)
  /\ search (ui w5) = qB
  /\ movies (ui w5) = or_array (OmdbSearchResponse.Search dA)
  /\ totalResults (ui w5)
     = parseInt (or_str (OmdbSearchResponse.totalResults dA) (js "0")) 10.
Proof.
  intros HA EA HB EB FA FB. cbv zeta. unfold after.
  apply str_eqb_neq in FA. apply str_eqb_neq in FB.
  rewrite (fetchMovies_begin_awaits key (ui w) 1 w encA HA EA).
  cbn [snd].
  set (w1 := {| ui := _; requests := _; console := console w |}).
  set (w2 := snd (setSearch qB w1)).
  assert (HB2 : truthy (trim (search (ui w2))) = true) by exact HB.
  assert (EB2 : encodeURIComponent (search (ui w2)) = Some encB) by exact EB.
  rewrite (fetchMovies_begin_awaits key (ui w2) 1 w2 encB HB2 EB2).
  cbn [snd].
  rewrite (fetchMovies_resume_success 1 false dB _ FB). cbn [snd].
  rewrite (fetchMovies_resume_success 1 false dA _ FA). cbn [snd].
  cbn [ui requests movies search totalResults].
  split; [unfold w2, w1; cbn; rewrite <- app_assoc; reflexivity|].
  repeat split.
Qed.

Lemma last_response_wins_witness :
  let w := run None [(Fixtures.omdb, InputChange (js "batman"))] start in
  let w1 := after (Async.fetchMovies_begin None (ui w) 1) w in
  let w2 := after (setSearch (js "superman")) w1 in
  let w3 := after (Async.fetchMovies_begin None (ui w2) 1) w2 in
  let w4 := after (Async.fetchMovies_resume 1 false
                     (Returned (Fixtures.found [Fixtures.movie "tt9"]))) w3 in
  let w5 := after (Async.fetchMovies_resume 1 false
                     (Returned (Fixtures.found Fixtures.page1))) w4 in
  search (ui w5) = js "superman" /\ movies (ui w5) = Fixtures.page1.
Proof.
  destruct (last_response_wins None
              (run None [(Fixtures.omdb, InputChange (js "batman"))] start)
              (js "superman") (js "batman") (js "superman")
              (Fixtures.found Fixtures.page1)
              (Fixtures.found [Fixtures.movie "tt9"]))
    as [_ [_ [S [M _]]]]; try reflexivity; try discriminate.
  split; [exact S | exact M].
Defined.

(** X21. A next page that arrives after a new search has replaced the results is
    appended to the new results, and the page number becomes that of the old
    query: the second half of [loadMore] appends to whatever the collection
    is when the response comes. *)
Theorem late_page_joins_new_results key net w qB encA encB dA dB :
  showLoadMore (ui w) = true ->
  truthy (trim (search (ui w))) = true ->
  encodeURIComponent (search (ui w)) = Some encA ->
  truthy (trim qB) = true ->
  encodeURIComponent qB = Some encB ->
  search_api net (search_url key encB 1) = Returned dB ->
  OmdbSearchResponse.Response dA <> js "False" ->
  OmdbSearchResponse.Response dB <> js "False" ->
  let w1 := after (Async.loadMore_begin key (ui w)) w in
  let w2 := after (setSearch qB) w1 in
  let w3 := after (fetchMovies key net (ui w2) 1 false) w2 in
  let w4 := after (Async.fetchMovies_resume (page (ui w) + 1) true
                     (Returned dA)) w3 in
  fst (Async.loadMore_begin key (ui w) w)
    = Ok (Async.Awaiting (search_url key encA (page (ui w) + 1)))
  /\ movies (ui w3) = or_array (OmdbSearchResponse.Search dB)
  /\ page (ui w3) = 1%Z
  /\ search (ui w4) = qB
  /\ movies (ui w4)
     = or_array (OmdbSearchResponse.Search dB)
       ++ or_array (OmdbSearchResponse.Search dA)
  /\ page (ui w4) = (page (ui w) + 1)%Z.
Proof.
  intros V HA EA HB EB TB FA FB. cbv zeta. unfold after.
  apply str_eqb_neq in FA. apply str_eqb_neq in FB.
  destruct (showLoadMore_passes_guard (ui w) V) as [_ G].
  unfold Async.loadMore_begin. rewrite G.
  rewrite (fetchMovies_begin_awaits key (ui w) (page (ui w) + 1) w encA HA EA).
  cbn [fst snd].
  set (w1 := {| ui := _; requests := _; console := console w |}).
  set (w2 := snd (setSearch qB w1)).
  assert (HB2 : truthy (trim (search (ui w2))) = true) by exact HB.
  assert (EB2 : encodeURIComponent (search (ui w2)) = Some encB) by exact EB.
  rewrite (fetchMovies_success key net (ui w2) 1 false w2 encB dB HB2 EB2 TB FB).
  cbn [snd].
  rewrite (fetchMovies_resume_success (page (ui w) + 1) true dA _ FA).
  cbn [snd]. repeat split.
Qed.

Lemma late_page_joins_new_results_witness :
  let w := Fixtures.browsing in
  let w1 := after (Async.loadMore_begin None (ui w)) w in
  let w2 := after (setSearch (js "superman")) w1 in
  let w3 := after (fetchMovies None
                     (Fixtures.always (Fixtures.found [Fixtures.movie "tt9"]))
                     (ui w2) 1 false) w2 in
  let w4 := after (Async.fetchMovies_resume (page (ui w) + 1) true
                     (Returned (Fixtures.found Fixtures.page2))) w3 in
  search (ui w4) = js "superman"
  /\ movies (ui w4) = [Fixtures.movie "tt9"] ++ Fixtures.page2
  /\ page (ui w4) = 2%Z.
Proof.
  destruct (late_page_joins_new_results None
              (Fixtures.always (Fixtures.found [Fixtures.movie "tt9"]))
              Fixtures.browsing (js "superman") (js "batman") (js "superman")
              (Fixtures.found Fixtures.page2)
              (Fixtures.found [Fixtures.movie "tt9"]))
    as [_ [_ [_ [S [M P]]]]]; try reflexivity; try discriminate.
  split; [exact S|]. split; [exact M | exact P].
Defined.

(** X22. With two searches in flight, the first response to arrive, whatever it
    is, takes the list flag down although the other request is still out. *)
Theorem first_response_clears_flag key w qB encA encB o :
  truthy (trim (search (ui w))) = true ->
  encodeURIComponent (search (ui w)) = Some encA ->
  truthy (trim qB) = true ->
  encodeURIComponent qB = Some encB ->
  let w1 := after (Async.fetchMovies_begin key (ui w) 1) w in
  let w2 := after (setSearch qB) w1 in
  let w3 := after (Async.fetchMovies_begin key (ui w2) 1) w2 in
  let w4 := after (Async.fetchMovies_resume 1 false o) w3 in
  fst (Async.fetchMovies_begin key (ui w2) 1 w2)
    = Ok (Async.Awaiting (search_url key encB 1))
  /\ loadingMovies (ui w3) = true
  /\ loadingMovies (ui w4) = false.
Proof.
  intros HA EA HB EB. cbv zeta.
  split; [|split].
  - unfold after.
    rewrite (fetchMovies_begin_awaits key (ui w) 1 w encA HA EA). cbn [snd].
    set (w1 := {| ui := _; requests := _; console := console w |}).
    set (w2 := snd (setSearch qB w1)).
    assert (HB2 : truthy (trim (search (ui w2))) = true) by exact HB.
    assert (EB2 : encodeURIComponent (search (ui w2)) = Some encB) by exact EB.
    rewrite (fetchMovies_begin_awaits key (ui w2) 1 w2 encB HB2 EB2).
    reflexivity.
  - unfold after.
    rewrite (fetchMovies_begin_awaits key (ui w) 1 w encA HA EA). cbn [snd].
    set (w1 := {| ui := _; requests := _; console := console w |}).
    set (w2 := snd (setSearch qB w1)).
    assert (HB2 : truthy (trim (search (ui w2))) = true) by exact HB.
    assert (EB2 : encodeURIComponent (search (ui w2)) = Some encB) by exact EB.
    rewrite (fetchMovies_begin_awaits key (ui w2) 1 w2 encB HB2 EB2).
    reflexivity.
  - apply fetchMovies_resume_clears_flag.
Qed.

Lemma first_response_clears_flag_witness :
  let w := run None [(Fixtures.omdb, InputChange (js "batman"))] start in
  let w1 := after (Async.fetchMovies_begin None (ui w) 1) w in
  let w2 := after (setSearch (js "superman")) w1 in
  let w3 := after (Async.fetchMovies_begin None (ui w2) 1) w2 in
  let w4 := after (Async.fetchMovies_resume 1 false (Threw TypeError)) w3 in
  loadingMovies (ui w3) = true /\ loadingMovies (ui w4) = false.
Proof.
  destruct (first_response_clears_flag None
              (run None [(Fixtures.omdb, InputChange (js "batman"))] start)
              (js "superman") (js "batman") (js "superman") (Threw TypeError))
    as [_ [A B]]; try reflexivity.
  split; [exact A | exact B].
Defined.

(** ** What goes into a URL *)

Section Encoding.

Local Open Scope N_scope.

Lemma hex_digit_unreserved (n : N) :
  n < 16 -> uri_unreserved (hex_digit n) = true.
Proof.
  intros H.
  assert (A : forallb (fun k => uri_unreserved (hex_digit (N.of_nat k)))
                (seq 0 16) = true) by reflexivity.
  rewrite forallb_forall in A. specialize (A (N.to_nat n)).
  rewrite N2Nat.id in A. apply A. apply in_seq. lia.
Qed.

Lemma percent_plain (b : N) :
  b < 256 ->
  Forall (fun c => uri_unreserved c = true \/ c = 0x25) (percent b).
Proof.
  intros H. unfold percent.
  constructor; [right; reflexivity|].
  constructor.
  { left. apply hex_digit_unreserved.
    apply N.Div0.div_lt_upper_bound. lia. }
  constructor; [|constructor].
  left. apply hex_digit_unreserved. apply N.mod_lt. discriminate.
Qed.

Lemma utf8_octets (cp : N) :
  cp < 0x110000 -> Forall (fun b => b < 256) (utf8 cp).
Proof.
  intros H. unfold utf8.
  destruct (N.ltb_spec cp 0x80) as [L1 | L1]; [repeat constructor; lia|].
  destruct (N.ltb_spec cp 0x800) as [L2 | L2].
  { assert (cp / 0x40 < 0x20) by (apply N.Div0.div_lt_upper_bound; lia).
    assert (cp mod 0x40 < 0x40) by (apply N.mod_lt; discriminate).
    repeat constructor; lia. }
  destruct (N.ltb_spec cp 0x10000) as [L3 | L3].
  { assert (cp / 0x1000 < 0x10) by (apply N.Div0.div_lt_upper_bound; lia).
    assert ((cp / 0x40) mod 0x40 < 0x40) by (apply N.mod_lt; discriminate).
    assert (cp mod 0x40 < 0x40) by (apply N.mod_lt; discriminate).
    repeat constructor; lia. }
  assert (cp / 0x40000 < 0x08) by (apply N.Div0.div_lt_upper_bound; lia).
  assert ((cp / 0x1000) mod 0x40 < 0x40) by (apply N.mod_lt; discriminate).
  assert ((cp / 0x40) mod 0x40 < 0x40) by (apply N.mod_lt; discriminate).
  assert (cp mod 0x40 < 0x40) by (apply N.mod_lt; discriminate).
  repeat constructor; lia.
Qed.

Lemma escape_cp_plain (cp : N) :
  cp < 0x110000 ->
  Forall (fun c => uri_unreserved c = true \/ c = 0x25) (escape_cp cp).
Proof.
  intros H. unfold escape_cp. pose proof (utf8_octets cp H) as O.
  induction O as [|b bs Hb _ IH]; cbn [flat_map]; [constructor|].
  apply Forall_app. split; [apply percent_plain; exact Hb | exact IH].
Qed.

Lemma encode_plain (n : nat) :
  forall s e,
    (List.length s <= n)%nat ->
    Forall (fun c => c < 0x10000) s ->
    encodeURIComponent s = Some e ->
    Forall (fun c => uri_unreserved c = true \/ c = 0x25) e.
Proof.
  induction n as [|n IH]; intros s e L W E.
  - destruct s; [|cbn in L; lia]. injection E as <-. constructor.
  - destruct s as [|c r]; [injection E as <-; constructor|].
    inversion W as [|? ? Wc Wr]; subst.
    cbn [encodeURIComponent] in E.
    destruct (uri_unreserved c) eqn:U.
    { destruct (encodeURIComponent r) as [e'|] eqn:Er; [|discriminate].
      injection E as <-. constructor; [left; exact U|].
      apply (IH r e'); [cbn in L; lia | exact Wr | exact Er]. }
    destruct (is_trail c) eqn:Tr; [discriminate|].
    destruct (is_lead c) eqn:Ld.
    + destruct r as [|d r']; [discriminate|].
      destruct (is_trail d) eqn:Td; [|discriminate].
      destruct (encodeURIComponent r') as [e'|] eqn:Er; [|discriminate].
      injection E as <-.
      inversion Wr as [|? ? Wd Wr']; subst.
      apply Forall_app. split.
      * apply escape_cp_plain.
        unfold is_lead in Ld. unfold is_trail in Td.
        apply andb_true_iff in Ld. apply andb_true_iff in Td.
        destruct Ld as [L1 L2]. destruct Td as [T1 T2].
        apply N.leb_le in L1, L2, T1, T2. nia.
      * apply (IH r' e'); [cbn in L; lia | exact Wr' | exact Er].
    + destruct (encodeURIComponent r) as [e'|] eqn:Er; [|discriminate].
      injection E as <-. apply Forall_app. split.
      * apply escape_cp_plain. lia.
      * apply (IH r e'); [cbn in L; lia | exact Wr | exact Er].
Qed.

Lemma encode_unreserved (s : jsstring) :
  forallb uri_unreserved s = true -> encodeURIComponent s = Some s.
Proof.
  induction s as [|c r IH]; intros H; [reflexivity|].
  cbn [forallb] in H. apply andb_true_iff in H. destruct H as [U H].
  cbn [encodeURIComponent]. rewrite U, (IH H). reflexivity.
Qed.

Lemma encode_without_surrogates (s : jsstring) :
  forallb (fun c => negb (is_lead c || is_trail c)) s = true ->
  encodeURIComponent s <> None.
Proof.
  induction s as [|c r IH]; intros H; [discriminate|].
  cbn [forallb] in H. apply andb_true_iff in H. destruct H as [S H].
  apply negb_true_iff, orb_false_iff in S. destruct S as [Ld Tr].
  cbn [encodeURIComponent]. rewrite Ld, Tr.
  specialize (IH H).
  destruct (encodeURIComponent r); [|congruence].
  destruct (uri_unreserved c); discriminate.
Qed.

End Encoding.

(** X12. The query text reaches the URL only as letters, digits, the marks
    [-_.!~*'()] and [%]: no [&], [=], [#], [?], [/], [+] or space of the
    text can end or extend the [s] parameter.  A text made of letters,
    digits and those marks is sent as typed, and a text without surrogates
    can always be encoded. *)
Theorem query_encoding (q : jsstring) :
  (forall encoded,
     Forall (fun c => (c < 0x10000)%N) q ->
     encodeURIComponent q = Some encoded ->
     Forall (fun c => uri_unreserved c = true \/ c = 0x25%N) encoded
     /\ forall c, In c encoded ->
          ~ In c [0x26; 0x3D; 0x23; 0x3F; 0x2F; 0x2B; 0x20]%N)
  /\ (forallb uri_unreserved q = true -> encodeURIComponent q = Some q)
  /\ (forallb (fun c => negb (is_lead c || is_trail c)) q = true ->
      encodeURIComponent q <> None).
Proof.
  split; [|split].
  - intros encoded W E.
    pose proof (encode_plain (List.length q) q encoded (le_n _) W E) as P.
    split; [exact P|].
    intros c Hc. rewrite Forall_forall in P. specialize (P c Hc).
    intros Bad. cbn [In] in Bad.
    destruct P as [U | ->].
    + repeat (destruct Bad as [<- | Bad]; [discriminate U|]). exact Bad.
    + repeat (destruct Bad as [Bad | Bad]; [discriminate Bad|]). exact Bad.
  - apply encode_unreserved.
  - apply encode_without_surrogates.
Qed.

Lemma query_encoding_witness :
  encodeURIComponent (js "star_wars") = Some (js "star_wars")
  /\ encodeURIComponent (js "a&page=9") = Some (js "a%26page%3D9")
  /\ ~ In 0x26%N (js "a%26page%3D9").
Proof.
  destruct (query_encoding (js "star_wars")) as [_ [A _]].
  destruct (query_encoding (js "a&page=9")) as [B _].
  destruct (B (js "a%26page%3D9")) as [_ C];
    [repeat constructor | reflexivity|].
  split; [apply A; reflexivity|]. split; [reflexivity|].
  intros I. apply (C _ I). left. reflexivity.
Defined.

(** X13. Different pages of a query have different URLs. *)
Theorem search_url_page key encoded p p' :
  p <> p' -> search_url key encoded p <> search_url key encoded p'.
Proof.
  intros NE E. apply NE. unfold search_url in E.
  repeat apply app_inv_head in E. apply toString_inj. exact E.
Qed.

Lemma search_url_page_witness :
  search_url None (js "batman") 2 <> search_url None (js "batman") 3.
Proof.
  apply (search_url_page None (js "batman") 2 3). discriminate.
Defined.

Lemma fetchMovies_thrown_keeps_results_witness :
  let w' := after (fetchMovies None Fixtures.offline (ui Fixtures.browsing)
                     2 true) Fixtures.browsing in
  movies (ui w') = Fixtures.page1
  /\ totalResults (ui w') = Num 5
  /\ page (ui w') = 1%Z.
Proof.
  destruct (fetchMovies_thrown_keeps_results None Fixtures.offline
              (ui Fixtures.browsing) 2 true Fixtures.browsing (js "batman")
              TypeError eq_refl eq_refl eq_refl) as [M [T [P _]]].
  split; [exact M|]. split; [exact T | exact P].
Defined.

(** X11. [fetchMovieDetails] sends a request exactly when the identifier is not
    empty and holds no lone surrogate; with an empty identifier it does
    nothing at all. *)
Theorem details_sends_request_iff key net id w :
  let w' := after (fetchMovieDetails key net id) w in
  (requests w' <> requests w <-> id <> [] /\ encodeURIComponent id <> None)
  /\ (id = [] -> fetchMovieDetails key net id w = (Ok tt, w))
  /\ (forall encoded,
        id <> [] -> encodeURIComponent id = Some encoded ->
        requests w' = requests w ++ [detail_url key encoded]).
Proof.
  cbv zeta.
  assert (K : forall encoded,
            id <> [] -> encodeURIComponent id = Some encoded ->
            requests (after (fetchMovieDetails key net id) w)
            = requests w ++ [detail_url key encoded]).
  { intros encoded NE E. apply truthy_true_iff in NE. unfold after.
    destruct (detail_api net (detail_url key encoded)) as [e|data] eqn:T.
    - rewrite (fetchMovieDetails_threw key net id w encoded e NE E T).
      reflexivity.
    - destruct (detail_failed data) eqn:F.
      + rewrite (fetchMovieDetails_failure key net id w encoded data NE E T F).
        reflexivity.
      + rewrite (fetchMovieDetails_success key net id w encoded data NE E T F).
        reflexivity. }
  split; [|split; [|exact K]].
  - split.
    + intros R. destruct id as [|c id'] eqn:I; [exfalso; apply R; reflexivity|].
      split; [discriminate|]. intros E. apply R. unfold after.
      rewrite (fetchMovieDetails_uri_error key net (c :: id') w eq_refl E).
      reflexivity.
    + intros [NE E].
      destruct (encodeURIComponent id) as [encoded|] eqn:Enc; [|congruence].
      rewrite (K encoded NE eq_refl). apply app_one_neq.
  - intros ->. reflexivity.
Qed.

Lemma details_sends_request_iff_witness :
  fetchMovieDetails None Fixtures.omdb [] Fixtures.browsing
    = (Ok tt, Fixtures.browsing)
  /\ requests (after (fetchMovieDetails None Fixtures.omdb (js "tt1"))
                 Fixtures.browsing)
     = requests Fixtures.browsing
       ++ [js "https://www.omdbapi.com/?i=tt1&apikey=3bc93085"].
Proof.
  destruct (details_sends_request_iff None Fixtures.omdb []
              Fixtures.browsing) as [_ [A _]].
  destruct (details_sends_request_iff None Fixtures.omdb (js "tt1")
              Fixtures.browsing) as [_ [_ B]].
  split; [apply A; reflexivity|].
  apply (B (js "tt1")); [discriminate | reflexivity].
Defined.

(** X23. While a search is out, a page without results shows the loading text in
    place of the grid, and a page with results keeps its cards and its
    load-more control; once no call is running, the grid shows the cards
    when there are results and the invitation to search when there are
    none. *)
Theorem grid_during_a_search key s pageParam w encoded :
  truthy (trim (search s)) = true ->
  encodeURIComponent (search s) = Some encoded ->
  let w1 := after (Async.fetchMovies_begin key s pageParam) w in
  (movies (ui w) = [] -> View.movieGrid (ui w1) = View.LoadingMovies)
  /\ (movies (ui w) <> [] ->
      View.movieGrid (ui w1) = View.Cards (movies (ui w)))
  /\ showLoadMore (ui w1) = showLoadMore (ui w)
  /\ (loadingMovies (ui w) = false ->
      View.movieGrid (ui w)
      = match movies (ui w) with
        | [] => View.EmptyState
        | _ :: _ => View.Cards (movies (ui w))
        end).
Proof.
  intros H E. cbv zeta. unfold after.
  rewrite (fetchMovies_begin_awaits key s pageParam w encoded H E).
  cbn [snd ui]. unfold View.movieGrid, showLoadMore.
  cbn [loadingMovies movies totalResults].
  split; [|split; [|split]].
  - intros ->. reflexivity.
  - intros NE. destruct (movies (ui w)); [congruence | reflexivity].
  - reflexivity.
  - intros ->. destruct (movies (ui w)); reflexivity.
Qed.

Lemma grid_during_a_search_witness :
  let fresh := run None [(Fixtures.omdb, InputChange (js "batman"))] start in
  View.movieGrid (ui (after (Async.fetchMovies_begin None (ui fresh) 1) fresh))
    = View.LoadingMovies
  /\ View.movieGrid
       (ui (after (Async.fetchMovies_begin None (ui Fixtures.browsing) 2)
              Fixtures.browsing))
     = View.Cards Fixtures.page1.
Proof.
  cbv zeta.
  destruct (grid_during_a_search None
              (ui (run None [(Fixtures.omdb, InputChange (js "batman"))] start))
              1
              (run None [(Fixtures.omdb, InputChange (js "batman"))] start)
              (js "batman") eq_refl eq_refl) as [A _].
  destruct (grid_during_a_search None (ui Fixtures.browsing) 2
              Fixtures.browsing (js "batman") eq_refl eq_refl) as [_ [B _]].
  split; [apply A; reflexivity | apply B; discriminate].
Defined.

(** X24. The load-more control stays in place and usable while a request is
    out, and [loadMore] reads the page number of the render: two uses before
    the first answer send the request for the same page twice, and when both
    answers have come the items of that page are on the page twice, with the
    page number advanced by one only. *)
Theorem second_use_repeats_page key w encoded data :
  showLoadMore (ui w) = true ->
  truthy (trim (search (ui w))) = true ->
  encodeURIComponent (search (ui w)) = Some encoded ->
  OmdbSearchResponse.Response data <> js "False" ->
  let next := (page (ui w) + 1)%Z in
  let w1 := after (Async.loadMore_begin key (ui w)) w in
  let w2 := after (Async.loadMore_begin key (ui w1)) w1 in
  let w3 := after (Async.fetchMovies_resume next true (Returned data)) w2 in
  let w4 := after (Async.fetchMovies_resume next true (Returned data)) w3 in
  showLoadMore (ui w1) = true
  /\ fst (Async.loadMore_begin key (ui w1) w1)
     = Ok (Async.Awaiting (search_url key encoded next))
  /\ requests w2
     = requests w ++ [search_url key encoded next; search_url key encoded next]
  /\ movies (ui w4)
     = movies (ui w) ++ or_array (OmdbSearchResponse.Search data)
       ++ or_array (OmdbSearchResponse.Search data)
  /\ page (ui w4) = next.
Proof.
  intros V H E F. cbv zeta. unfold after.
  apply str_eqb_neq in F.
  assert (L : forall w0, showLoadMore (ui w0) = true ->
                Async.loadMore_begin key (ui w0) w0
                = Async.fetchMovies_begin key (ui w0) (page (ui w0) + 1) w0).
  { intros w0 V0. destruct (showLoadMore_passes_guard (ui w0) V0) as [_ G].
    unfold Async.loadMore_begin. rewrite G. reflexivity. }
  rewrite (L w V).
  rewrite (fetchMovies_begin_awaits key (ui w) (page (ui w) + 1) w encoded H E).
  cbn [snd].
  set (w1 := {| ui := _; requests := _; console := console w |}).
  assert (V1 : showLoadMore (ui w1) = true) by exact V.
  assert (H1 : truthy (trim (search (ui w1))) = true) by exact H.
  assert (E1 : encodeURIComponent (search (ui w1)) = Some encoded) by exact E.
  rewrite (L w1 V1).
  rewrite (fetchMovies_begin_awaits key (ui w1) (page (ui w1) + 1) w1
             encoded H1 E1).
  cbn [fst snd].
  rewrite (fetchMovies_resume_success (page (ui w) + 1) true data _ F).
  cbn [snd].
  rewrite (fetchMovies_resume_success (page (ui w) + 1) true data _ F).
  cbn [snd ui requests movies page].
  split; [exact V1|]. split; [reflexivity|].
  split; [unfold w1; cbn; rewrite <- app_assoc; reflexivity|].
  split; [rewrite <- app_assoc; reflexivity | reflexivity].
Qed.

Lemma second_use_repeats_page_witness :
  let w := Fixtures.browsing in
  let w1 := after (Async.loadMore_begin None (ui w)) w in
  let w2 := after (Async.loadMore_begin None (ui w1)) w1 in
  let w3 := after (Async.fetchMovies_resume 2 true
                     (Returned (Fixtures.found Fixtures.page2))) w2 in
  let w4 := after (Async.fetchMovies_resume 2 true
                     (Returned (Fixtures.found Fixtures.page2))) w3 in
  movies (ui w4) = Fixtures.page1 ++ Fixtures.page2 ++ Fixtures.page2
  /\ page (ui w4) = 2%Z.
Proof.
  destruct (second_use_repeats_page None Fixtures.browsing (js "batman")
              (Fixtures.found Fixtures.page2))
    as [_ [_ [_ [M P]]]]; try reflexivity; try discriminate.
  split; [exact M | exact P].
Defined.
